(** * A shallow embedding of the Graph client

    The Python sources are [functions/graph/graph_client.py] (class
    [GraphClient]) and [functions/graph/authenticate.py] (the stand-alone
    [authenticate] script).  Every method of the class is translated to a
    state-and-exception computation over the attributes of [self] and a
    description of the outside world: the token-cache file on disk, the
    answers of the identity provider (through the MSAL library) and the
    answers of the Graph service (through [requests]).

    The outside is given as data: the answers the service and the provider
    will give, in order, and for every text that an external parser reads
    (a response body, the content of the cache file) what the parser makes
    of it.  A call whose answer never comes is [Blocked].  The effects a
    call performs are recorded, in order, in the trace of the state.

    What is not modelled: the [print] calls (console output only), the
    configuration read from the environment ([client_id], [tenant_id],
    [sender_email], the path of the cache file: none of them enters the
    control flow), failures of disk writes, and the network errors that
    [requests] itself may raise.  Python integers are unbounded here and
    [time.sleep] accepts every non-negative integer. *)

From Stdlib Require Import ZArith List String Ascii Bool Lia DecimalString.
From Stdlib Require Import DecimalPos DecimalZ.
Import ListNotations.
Local Open Scope string_scope.
Local Open Scope Z_scope.

(** ** Strings as Python uses them *)

Module PyStr.

(** [str(n)] for an [int]. *)
Definition str (n : Z) : string := NilZero.string_of_int (Z.to_int n).

(** [c.isspace()] on the characters below 256 (header values reach the
    program decoded as latin-1, one character per byte). *)
Definition isspace (c : ascii) : bool :=
  let n := N_of_ascii c in
  (((9 <=? n) && (n <=? 13)) || ((28 <=? n) && (n <=? 32))
   || (n =? 133) || (n =? 160))%N.

Fixpoint lstrip (s : string) : string :=
  match s with
  | String c r => if isspace c then lstrip r else s
  | EmptyString => EmptyString
  end.

(** The text with its trailing whitespace removed. *)
Fixpoint rstrip (s : string) : string :=
  match s with
  | EmptyString => EmptyString
  | String c r =>
      match rstrip r with
      | EmptyString => if isspace c then EmptyString else String c EmptyString
      | r' => String c r'
      end
  end.

(** [s.strip()]. *)
Definition strip (s : string) : string := rstrip (lstrip s).

(** Truth value of a [str]: non-empty. *)
Definition truthy (s : string) : bool :=
  match s with EmptyString => false | String _ _ => true end.

(** [sub in s]. *)
Fixpoint contains (sub s : string) : bool :=
  prefix sub s ||
  match s with
  | EmptyString => false
  | String _ r => contains sub r
  end.

(** [s.lower()] on ASCII letters, used for header names. *)
Definition lower_char (c : ascii) : ascii :=
  let n := N_of_ascii c in
  if ((65 <=? n) && (n <=? 90))%N then ascii_of_N (n + 32) else c.

Fixpoint lower (s : string) : string :=
  match s with
  | EmptyString => EmptyString
  | String c r => String (lower_char c) (lower r)
  end.

Definition digit (c : ascii) : option Z :=
  let n := N_of_ascii c in
  if ((48 <=? n) && (n <=? 57))%N then Some (Z.of_N n - 48) else None.

(** The digits of an integer literal, read left to right: [acc] is the
    value so far and [after_digit] tells whether the previous character
    was a digit (an underscore is accepted only between two digits). *)
Fixpoint digits (s : string) (acc : Z) (after_digit : bool) : option Z :=
  match s with
  | EmptyString => if after_digit then Some acc else None
  | String c r =>
      match digit c with
      | Some d => digits r (10 * acc + d) true
      | None =>
          if (Ascii.eqb c "_") && after_digit then
            match r with
            | String c' _ =>
                match digit c' with
                | Some _ => digits r acc false
                | None => None
                end
            | EmptyString => None
            end
          else None
      end
  end.

(** [int(s)] for a [str] in base ten: [None] stands for [ValueError]. *)
Definition int (s : string) : option Z :=
  match strip s with
  | String "+" r => digits r 0 false
  | String "-" r => option_map Z.opp (digits r 0 false)
  | r => digits r 0 false
  end.

End PyStr.

(** ** Values exchanged with the outside *)

(** A JSON-like Python value: what [requests] serialises from the [json=]
    argument and what [response.json()] gives back.  A [dict] keeps its
    insertion order. *)
#[local] Set Warnings "-register-all".
Inductive json : Type :=
| JNull
| JBool (b : bool)
| JInt (n : Z)
| JStr (s : string)
| JList (l : list json)
| JDict (d : list (string * json)).

(** [d.get(key)] on the pairs of a [dict]. *)
Fixpoint dict_get {A} (key : string) (d : list (string * A)) : option A :=
  match d with
  | [] => None
  | (k, v) :: r => if String.eqb k key then Some v else dict_get key r
  end.

Record request := {
  method : string;
  url : string;
  req_headers : list (string * string);
  req_json : option json
}.

(** A [requests.Response].  [json] is what [response.json()] produces from
    the body: [None] when the body is not a JSON text and the call raises. *)
Record response := {
  status_code : Z;
  headers : list (string * string);
  text : string;
  json_body : option json
}.

(** [response.headers.get(key, default)]: header names compare without
    regard to case. *)
Fixpoint headers_get (hs : list (string * string)) (key default : string)
  : string :=
  match hs with
  | [] => default
  | (k, v) :: r =>
      if String.eqb (PyStr.lower k) (PyStr.lower key) then v
      else headers_get r key default
  end.

(** ** The MSAL library, as the client uses it *)

Module Msal.

Definition account := string.

(** The content of a token cache: the accounts it holds and the text
    [serialize()] writes for it. *)
Record cache_data := {
  accounts : list account;
  serialized : string
}.

Definition empty_data : cache_data :=
  {| accounts := []; serialized := "{}" |}.

(** A [SerializableTokenCache] object. *)
Record token_cache := {
  data : cache_data;
  has_state_changed : bool
}.

(** [msal.SerializableTokenCache()]. *)
Definition new_cache : token_cache :=
  {| data := empty_data; has_state_changed := false |}.

(** Text read from a file, with what the library's loader makes of it
    ([None]: the loader raises on this text). *)
Record file_text := {
  chars : string;
  loads : option cache_data
}.

(** [cache.deserialize(state)]: an empty text gives the empty cache, any
    other text goes through the loader; the flag is cleared.  When the
    loader raises the cache object is left as it was. *)
Definition deserialize (state : file_text) : option token_cache :=
  if PyStr.truthy (chars state) then
    match loads state with
    | Some d => Some {| data := d; has_state_changed := false |}
    | None => None
    end
  else Some {| data := empty_data; has_state_changed := false |}.

(** The [dict] an acquisition returns. *)
Definition token_response := list (string * string).

(** One answer of the identity provider to [acquire_token_silent] or
    [acquire_token_interactive]: the value returned ([None] for Python's
    [None]) and, when the library stored new material, the new content of
    the cache. *)
Record acquisition := {
  returned : option token_response;
  stored : option cache_data
}.

End Msal.

(** The cache file: absent, present but failing in [open] or [read]
    (no permission, bytes that are not UTF-8), or readable. *)
Inductive file : Type :=
| Unreadable
| Readable (t : Msal.file_text).

(** ** State, effects and exceptions *)

Inductive event : Type :=
| Http (r : request)
| Sleep (secs : Z)
| AcquireSilent (scopes : list string) (acct : Msal.account)
| AcquireInteractive (scopes : list string)
| WriteCache (content : string).

Inductive exn : Type :=
| Exception (msg : string)
| RuntimeError (msg : string)
| ValueError
| JSONDecodeError
| KeyError (key : string)
| TypeError
| AttributeError
| OSError.

(** The attributes of [self] that the methods read and write, then the
    outside world: the cache file, the answers the identity provider and the
    Graph service will give, in order, and the effects performed so far, in
    order. *)
Record state := mkState {
  token : option string;
  max_retries : Z;
  cache : Msal.token_cache;
  disk : option file;
  idp : list Msal.acquisition;
  server : list response;
  trace : list event
}.

Definition set_token (t : option string) (s : state) : state :=
  mkState t (max_retries s) (cache s) (disk s) (idp s) (server s) (trace s).
Definition set_max_retries (n : Z) (s : state) : state :=
  mkState (token s) n (cache s) (disk s) (idp s) (server s) (trace s).
Definition set_cache (c : Msal.token_cache) (s : state) : state :=
  mkState (token s) (max_retries s) c (disk s) (idp s) (server s) (trace s).
Definition set_disk (d : option file) (s : state) : state :=
  mkState (token s) (max_retries s) (cache s) d (idp s) (server s) (trace s).
Definition set_idp (l : list Msal.acquisition) (s : state) : state :=
  mkState (token s) (max_retries s) (cache s) (disk s) l (server s) (trace s).
Definition set_server (l : list response) (s : state) : state :=
  mkState (token s) (max_retries s) (cache s) (disk s) (idp s) l (trace s).
Definition log (e : event) (s : state) : state :=
  mkState (token s) (max_retries s) (cache s) (disk s) (idp s) (server s)
          (trace s ++ [e])%list.

(** How a call ends: it returns, it raises, or it waits for an answer the
    outside never gives. *)
Inductive outcome (A : Type) : Type :=
| Return (a : A)
| Raise (e : exn)
| Blocked.
Arguments Return {A} a.
Arguments Raise {A} e.
Arguments Blocked {A}.

Definition M (A : Type) : Type := state -> outcome A * state.

Definition ret {A} (a : A) : M A := fun s => (Return a, s).
Definition raise {A} (e : exn) : M A := fun s => (Raise e, s).
Definition blocked {A} : M A := fun s => (Blocked, s).
Definition bind {A B} (m : M A) (k : A -> M B) : M B :=
  fun s =>
    match m s with
    | (Return a, s') => k a s'
    | (Raise e, s') => (Raise e, s')
    | (Blocked, s') => (Blocked, s')
    end.

(** [try: m  except Exception: h]. *)
Definition try_except {A} (m : M A) (h : exn -> M A) : M A :=
  fun s =>
    match m s with
    | (Raise e, s') => h e s'
    | r => r
    end.

Declare Scope py_scope.
Delimit Scope py_scope with py.
Notation "x <- m ;; k" := (bind m (fun x => k))
  (at level 61, m at next level, right associativity) : py_scope.
Notation "m ;; k" := (bind m (fun _ => k))
  (at level 61, right associativity) : py_scope.
Local Open Scope py_scope.

Definition get {A} (f : state -> A) : M A := fun s => (Return (f s), s).
Definition modify (f : state -> state) : M unit := fun s => (Return tt, f s).

(** Reading [self.token]; the attribute exists only once assigned. *)
Definition self_token : M string :=
  fun s =>
    match token s with
    | Some t => (Return t, s)
    | None => (Raise AttributeError, s)
    end.

(** [requests.get] / [requests.post]: the request goes out, the next answer
    of the service comes back. *)
Definition send (r : request) : M response :=
  fun s =>
    match server s with
    | resp :: rest => (Return resp, set_server rest (log (Http r) s))
    | [] => (Blocked, log (Http r) s)
    end.

Definition requests_get (u : string) (hs : list (string * string))
  : M response :=
  send {| method := "GET"; url := u; req_headers := hs; req_json := None |}.

Definition requests_post (u : string) (hs : list (string * string))
  (body : json) : M response :=
  send {| method := "POST"; url := u; req_headers := hs;
          req_json := Some body |}.

(** [response.json()]. *)
Definition response_json (r : response) : M json :=
  match json_body r with
  | Some j => ret j
  | None => raise JSONDecodeError
  end.

(** [int(s)]. *)
Definition int (s : string) : M Z :=
  match PyStr.int s with
  | Some n => ret n
  | None => raise ValueError
  end.

(** [time.sleep(secs)]: a negative length is a [ValueError]. *)
Definition sleep (secs : Z) : M unit :=
  if secs <? 0 then raise ValueError else modify (log (Sleep secs)).

(** [data[key]] for a string key. *)
Definition subscript (data : json) (key : string) : M json :=
  match data with
  | JDict d =>
      match dict_get key d with
      | Some v => ret v
      | None => raise (KeyError key)
      end
  | _ => raise TypeError
  end.

(** [data.get(key, default)]: only a [dict] has the method. *)
Definition json_get (data : json) (key : string) (default : json) : M json :=
  match data with
  | JDict d =>
      match dict_get key d with
      | Some v => ret v
      | None => ret default
      end
  | _ => raise AttributeError
  end.

(** ** [graph_client.py] *)

Definition MAX_RETRIES : Z := 3.

Definition SCOPES : list string :=
  ["Files.Read.All"; "Files.ReadWrite"; "Files.ReadWrite.All"; "Mail.Send"].

(** The marker the lock-contention checks look for in the body. *)
Definition LOCK_MARKER : string := "EditModeCannotAcquireLockTooManyRequests".

(** *** The application object and its cache

    [self.app] is built over [self.cache], so both names denote the one
    cache object of the state. *)

Definition get_accounts : M (list Msal.account) :=
  get (fun s => Msal.accounts (Msal.data (cache s))).

(** An acquisition: the call is made, the next answer of the identity
    provider comes back, and what the library stored lands in the cache with
    the flag raised. *)
Definition acquire (call : event) : M (option Msal.token_response) :=
  fun s =>
    match idp s with
    | a :: rest =>
        let s1 := set_idp rest (log call s) in
        (Return (Msal.returned a),
         match Msal.stored a with
         | Some d =>
             set_cache {| Msal.data := d; Msal.has_state_changed := true |} s1
         | None => s1
         end)
    | [] => (Blocked, log call s)
    end.

Definition acquire_token_silent (scopes : list string) (acct : Msal.account)
  : M (option Msal.token_response) :=
  acquire (AcquireSilent scopes acct).

Definition acquire_token_interactive (scopes : list string)
  : M (option Msal.token_response) :=
  acquire (AcquireInteractive scopes).

(** [not token_response or "access_token" not in token_response]. *)
Definition no_token (token_response : option Msal.token_response) : bool :=
  match token_response with
  | None => true
  | Some [] => true
  | Some d =>
      match dict_get "access_token" d with
      | Some _ => false
      | None => true
      end
  end.

(** The message of the [RuntimeError] of a failed authentication. *)
Definition auth_failure (token_response : option Msal.token_response)
  : string :=
  "Authentication failed: " ++
  match token_response with
  | None => "No response"
  | Some [] => "No response"
  | Some d =>
      match dict_get "error_description" d with
      | Some v => v
      | None => "No token returned"
      end
  end.

(** [os.path.exists(self.cache_file)]. *)
Definition cache_file_exists : M bool :=
  get (fun s => match disk s with Some _ => true | None => false end).

(** [with open(self.cache_file, "r", encoding="utf-8") as f: f.read()]. *)
Definition read_cache_file : M Msal.file_text :=
  fun s =>
    match disk s with
    | Some (Readable t) => (Return t, s)
    | _ => (Raise OSError, s)
    end.

(** [self.cache.deserialize(content)]. *)
Definition cache_deserialize (content : Msal.file_text) : M unit :=
  match Msal.deserialize content with
  | Some c => modify (set_cache c)
  | None => raise JSONDecodeError
  end.

(** [self.cache.serialize()]: the text of the cache; the flag is cleared. *)
Definition cache_serialize : M string :=
  fun s =>
    let d := Msal.data (cache s) in
    (Return (Msal.serialized d),
     set_cache {| Msal.data := d; Msal.has_state_changed := false |} s).

(** Writing the cache file: the library reads back what it wrote. *)
Definition write_cache_file (content : string) : M unit :=
  fun s =>
    (Return tt,
     set_disk
       (Some (Readable {| Msal.chars := content;
                          Msal.loads := Some (Msal.data (cache s)) |}))
       (log (WriteCache content) s)).

Definition _save_cache_if_changed : M unit :=
  changed <- get (fun s => Msal.has_state_changed (cache s));;
  if changed then
    content <- cache_serialize;;
    write_cache_file content
  else ret tt.

Definition _get_token_or_authenticate : M unit :=
  accounts <- get_accounts;;
  token_response <-
    match accounts with
    | a :: _ => acquire_token_silent SCOPES a
    | [] => ret None
    end;;
  token_response <-
    (if no_token token_response then acquire_token_interactive SCOPES
     else ret token_response);;
  if no_token token_response then
    raise (RuntimeError (auth_failure token_response))
  else
    _save_cache_if_changed;;
    match token_response with
    | Some d =>
        match dict_get "access_token" d with
        | Some t => modify (set_token (Some t))
        | None => raise (KeyError "access_token")
        end
    | None => raise TypeError
    end.

Definition __init__ : M unit :=
  modify (set_token None);;
  modify (set_cache Msal.new_cache);;
  modify (set_max_retries MAX_RETRIES);;
  present <- cache_file_exists;;
  (if present then
     try_except
       (content <- read_cache_file;;
        if PyStr.truthy (PyStr.strip (Msal.chars content))
        then cache_deserialize content
        else ret tt)
       (fun _ => ret tt)
   else ret tt);;
  _get_token_or_authenticate.

Definition _ensure_token : M unit :=
  accounts <- get_accounts;;
  match accounts with
  | [] => _get_token_or_authenticate
  | a :: _ =>
      token_response <- acquire_token_silent SCOPES a;;
      token_response <-
        (if no_token token_response then
           token_response <- acquire_token_interactive SCOPES;;
           if no_token token_response then
             raise (RuntimeError (auth_failure token_response))
           else ret token_response
         else ret token_response);;
      _save_cache_if_changed;;
      match token_response with
      | Some d =>
          match dict_get "access_token" d with
          | Some t => modify (set_token (Some t))
          | None => raise (KeyError "access_token")
          end
      | None => raise TypeError
      end
  end.

(** The header dictionary every method builds around a token. *)
Definition bearer (tok : string) : list (string * string) :=
  [("Authorization", "Bearer " ++ tok); ("Content-Type", "application/json")].

Definition _auth_headers : M (list (string * string)) :=
  _ensure_token;;
  tok <- self_token;;
  ret (bearer tok).

(** *** The remote operations

    Each method calls itself again after a throttled or lock-contended
    answer.  The recursion is written over a number of rounds; the methods
    proper, further down, are given one more round than the service has
    answers left.  Every round takes one answer, so these rounds cannot run
    out, and any larger number gives the same result ([rounds_stable]). *)

Definition GRAPH : string := "https://graph.microsoft.com/v1.0".

(** The throttling branch shared, line for line, by five methods: the
    budget goes down by one, the delay is read and slept. *)
Definition throttle_backoff (response : response) : M unit :=
  modify (fun s => set_max_retries (max_retries s - 1) s);;
  retry_after <- int (headers_get (headers response) "Retry-After" "30");;
  sleep retry_after.

(** The lock-contention branch of the two write methods. *)
Definition lock_backoff : M unit :=
  modify (fun s => set_max_retries (max_retries s - 1) s);;
  sleep 10.

Definition throttled (response : response) (s : state) : bool :=
  (status_code response =? 429) && (0 <? max_retries s).

Definition lock_contended (response : response) (s : state) : bool :=
  PyStr.contains LOCK_MARKER (text response) && (0 <? max_retries s).

Fixpoint get_excel_rows_rounds (rounds : nat)
  (excel_item_id excel_worksheet : string) : M json :=
  match rounds with
  | O => blocked
  | S rounds =>
      tok <- self_token;;
      let url := GRAPH ++ "/me/drive/items/" ++ excel_item_id
                 ++ "/workbook/worksheets/" ++ excel_worksheet
                 ++ "/usedRange" in
      response <- requests_get url (bearer tok);;
      data <- response_json response;;
      is_throttled <- get (throttled response);;
      if is_throttled then
        throttle_backoff response;;
        get_excel_rows_rounds rounds excel_item_id excel_worksheet
      else if negb (status_code response =? 200) then
        raise (Exception ("Failed to get Excel rows: " ++ text response))
      else
        subscript data "values"
  end.

(** One entry of the batch: the request for the row at position [id]
    (counted from zero) of the input. *)
Definition sub_request (excel_item_id excel_worksheet end_column : string)
  (id : nat) (row : Z * list json) : json :=
  let row_number := fst row in
  let row_data := snd row in
  let url := "/me/drive/items/" ++ excel_item_id
             ++ "/workbook/worksheets('" ++ excel_worksheet
             ++ "')/range(address='A" ++ PyStr.str row_number ++ ":"
             ++ end_column ++ PyStr.str row_number ++ "')" in
  JDict [("id", JStr (PyStr.str (Z.of_nat id + 1)));
         ("method", JStr "PATCH");
         ("url", JStr url);
         ("body", JDict [("values", JList [JList row_data])]);
         ("headers", JDict [("Content-Type", JStr "application/json")])].

(** [enumerate(rows)]. *)
Definition enumerate {A} (l : list A) : list (nat * A) :=
  combine (seq 0 (List.length l)) l.

(** The loop that fills [request_list]. *)
Definition request_list (excel_item_id excel_worksheet end_column : string)
  (rows : list (Z * list json)) : list json :=
  fold_left
    (fun (acc : list json) '(id, row) =>
       (acc ++ [sub_request excel_item_id excel_worksheet end_column id row])
       %list)
    (enumerate rows) [].

Fixpoint batch_update_excel_rows_rounds (rounds : nat)
  (excel_item_id excel_worksheet : string) (rows : list (Z * list json))
  (end_column : string) : M json :=
  match rounds with
  | O => blocked
  | S rounds =>
      tok <- self_token;;
      let requests :=
        request_list excel_item_id excel_worksheet end_column rows in
      let url := GRAPH ++ "/$batch" in
      let body := JDict [("requests", JList requests)] in
      response <- requests_post url (bearer tok) body;;
      is_throttled <- get (throttled response);;
      if is_throttled then
        throttle_backoff response;;
        batch_update_excel_rows_rounds rounds excel_item_id excel_worksheet
          rows end_column
      else if negb (status_code response =? 200) then
        raise (Exception ("Failed to batch update Excel: " ++ text response))
      else
        modify (set_max_retries MAX_RETRIES);;
        is_locked <- get (lock_contended response);;
        if is_locked then
          lock_backoff;;
          batch_update_excel_rows_rounds rounds excel_item_id excel_worksheet
            rows end_column
        else
          modify (set_max_retries MAX_RETRIES);;
          response_json response
  end.

Fixpoint reorder_excel_rows_rounds (rounds : nat)
  (excel_item_id excel_worksheet : string) (fields : json) : M json :=
  match rounds with
  | O => blocked
  | S rounds =>
      tok <- self_token;;
      let url := GRAPH ++ "/me/drive/items/" ++ excel_item_id
                 ++ "/workbook/worksheets/" ++ excel_worksheet
                 ++ "/usedRange/sort/apply" in
      let body := JDict [("fields", fields)] in
      response <- requests_post url (bearer tok) body;;
      is_throttled <- get (throttled response);;
      if is_throttled then
        throttle_backoff response;;
        reorder_excel_rows_rounds rounds excel_item_id excel_worksheet fields
      else if negb (status_code response =? 200) then
        raise (Exception ("Failed to reorder Excel rows: " ++ text response))
      else
        modify (set_max_retries MAX_RETRIES);;
        response_json response
  end.

Fixpoint append_rows_to_table_rounds (rounds : nat)
  (excel_item_id table_name : string) (rows : json) : M json :=
  match rounds with
  | O => blocked
  | S rounds =>
      tok <- self_token;;
      let url := GRAPH ++ "/me/drive/items/" ++ excel_item_id
                 ++ "/workbook/tables/" ++ table_name ++ "/rows/add" in
      let body := JDict [("values", rows)] in
      response <- requests_post url (bearer tok) body;;
      is_throttled <- get (throttled response);;
      if is_throttled then
        throttle_backoff response;;
        append_rows_to_table_rounds rounds excel_item_id table_name rows
      else
        is_locked <- get (lock_contended response);;
        if is_locked then
          lock_backoff;;
          append_rows_to_table_rounds rounds excel_item_id table_name rows
        else if negb (status_code response =? 201) then
          raise (Exception ("Failed to append rows: " ++ text response))
        else
          modify (set_max_retries MAX_RETRIES);;
          response_json response
  end.

Fixpoint list_tables_rounds (rounds : nat) (excel_item_id : string)
  : M json :=
  match rounds with
  | O => blocked
  | S rounds =>
      tok <- self_token;;
      let url := GRAPH ++ "/me/drive/items/" ++ excel_item_id
                 ++ "/workbook/tables" in
      response <- requests_get url (bearer tok);;
      is_throttled <- get (throttled response);;
      if is_throttled then
        throttle_backoff response;;
        list_tables_rounds rounds excel_item_id
      else if negb (status_code response =? 200) then
        raise (Exception ("Failed to list tables: " ++ text response))
      else
        modify (set_max_retries MAX_RETRIES);;
        data <- response_json response;;
        json_get data "value" (JList [])
  end.

(** The number of rounds that cannot run out. *)
Definition enough (s : state) : nat := S (List.length (server s)).

Definition get_excel_rows (excel_item_id excel_worksheet : string) : M json :=
  fun s => get_excel_rows_rounds (enough s) excel_item_id excel_worksheet s.

Definition batch_update_excel_rows (excel_item_id excel_worksheet : string)
  (rows : list (Z * list json)) (end_column : string) : M json :=
  fun s =>
    batch_update_excel_rows_rounds (enough s) excel_item_id excel_worksheet
      rows end_column s.

Definition reorder_excel_rows (excel_item_id excel_worksheet : string)
  (fields : json) : M json :=
  fun s =>
    reorder_excel_rows_rounds (enough s) excel_item_id excel_worksheet fields s.

Definition append_rows_to_table (excel_item_id table_name : string)
  (rows : json) : M json :=
  fun s =>
    append_rows_to_table_rounds (enough s) excel_item_id table_name rows s.

Definition list_tables (excel_item_id : string) : M json :=
  fun s => list_tables_rounds (enough s) excel_item_id s.

Definition send_email (recipient_email subject body : string)
  (save_to_sent : bool) : M bool :=
  hdrs <- _auth_headers;;
  let url := GRAPH ++ "/me/sendMail" in
  let payload :=
    JDict [("message",
            JDict [("subject", JStr subject);
                   ("body", JDict [("contentType", JStr "Text");
                                   ("content", JStr body)]);
                   ("toRecipients",
                    JList [JDict [("emailAddress",
                                   JDict [("address",
                                           JStr recipient_email)])]])]);
           ("saveToSentItems", JBool save_to_sent)] in
  resp <- requests_post url hdrs payload;;
  if negb ((status_code resp =? 202) || (status_code resp =? 200)) then
    raise (Exception ("Failed to send email: " ++ PyStr.str (status_code resp)
                      ++ " " ++ text resp))
  else ret true.

(** ** [authenticate.py] *)


(** ** The operations of the specification

    The specification names the remote operations GetRange,
    BatchUpdateRange, SortRange, AppendTableRows, ListTables and SendEmail.
    The first five are the workbook methods; [invoke] runs the method a
    call denotes, so that a statement can range over all of them. *)

Inductive workbook_call : Type :=
| GetRange (excel_item_id excel_worksheet : string)
| BatchUpdateRange (excel_item_id excel_worksheet : string)
    (rows : list (Z * list json)) (end_column : string)
| SortRange (excel_item_id excel_worksheet : string) (fields : json)
| AppendTableRows (excel_item_id table_name : string) (rows : json)
| ListTables (excel_item_id : string).

Definition invoke_rounds (rounds : nat) (c : workbook_call) : M json :=
  match c with
  | GetRange i w => get_excel_rows_rounds rounds i w
  | BatchUpdateRange i w rows e =>
      batch_update_excel_rows_rounds rounds i w rows e
  | SortRange i w f => reorder_excel_rows_rounds rounds i w f
  | AppendTableRows i t rows => append_rows_to_table_rounds rounds i t rows
  | ListTables i => list_tables_rounds rounds i
  end.

Definition invoke (c : workbook_call) : M json :=
  match c with
  | GetRange i w => get_excel_rows i w
  | BatchUpdateRange i w rows e => batch_update_excel_rows i w rows e
  | SortRange i w f => reorder_excel_rows i w f
  | AppendTableRows i t rows => append_rows_to_table i t rows
  | ListTables i => list_tables i
  end.

(** The request a call sends when the token of [self] is [tok]. *)
Definition request_of (c : workbook_call) (tok : string) : request :=
  match c with
  | GetRange i w =>
      {| method := "GET";
         url := GRAPH ++ "/me/drive/items/" ++ i ++ "/workbook/worksheets/"
                ++ w ++ "/usedRange";
         req_headers := bearer tok; req_json := None |}
  | BatchUpdateRange i w rows e =>
      {| method := "POST"; url := GRAPH ++ "/$batch";
         req_headers := bearer tok;
         req_json :=
           Some (JDict [("requests", JList (request_list i w e rows))]) |}
  | SortRange i w f =>
      {| method := "POST";
         url := GRAPH ++ "/me/drive/items/" ++ i ++ "/workbook/worksheets/"
                ++ w ++ "/usedRange/sort/apply";
         req_headers := bearer tok;
         req_json := Some (JDict [("fields", f)]) |}
  | AppendTableRows i t rows =>
      {| method := "POST";
         url := GRAPH ++ "/me/drive/items/" ++ i ++ "/workbook/tables/"
                ++ t ++ "/rows/add";
         req_headers := bearer tok;
         req_json := Some (JDict [("values", rows)]) |}
  | ListTables i =>
      {| method := "GET";
         url := GRAPH ++ "/me/drive/items/" ++ i ++ "/workbook/tables";
         req_headers := bearer tok; req_json := None |}
  end.

(** The text that opens the message of the exception of a call. *)
Definition failure_prefix (c : workbook_call) : string :=
  match c with
  | GetRange _ _ => "Failed to get Excel rows: "
  | BatchUpdateRange _ _ _ _ => "Failed to batch update Excel: "
  | SortRange _ _ _ => "Failed to reorder Excel rows: "
  | AppendTableRows _ _ _ => "Failed to append rows: "
  | ListTables _ => "Failed to list tables: "
  end.

(** The status a call takes for success. *)
Definition success_status (c : workbook_call) : Z :=
  match c with
  | AppendTableRows _ _ _ => 201
  | _ => 200
  end.

(** [get_excel_rows] decodes the body before it looks at the status. *)
Definition decodes_first (c : workbook_call) : bool :=
  match c with
  | GetRange _ _ => true
  | _ => false
  end.

(** The delay a throttled answer asks for. *)
Definition retry_after (r : response) : option Z :=
  PyStr.int (headers_get (headers r) "Retry-After" "30").

(** The state once [req] has gone out and the answer has been taken. *)
Definition sent (req : request) (rest : list response) (s : state) : state :=
  set_server rest (log (Http req) s).

(** The state once a round has ended in a back-off of [d]. *)
Definition backed_off (req : request) (rest : list response) (d : Z)
  (s : state) : state :=
  log (Sleep d)
      (set_max_retries (max_retries s - 1) (sent req rest s)).

(** The requests among the events of a trace. *)
Fixpoint requests_in (t : list event) : nat :=
  match t with
  | [] => O
  | Http _ :: r => S (requests_in r)
  | _ :: r => requests_in r
  end.

(** The request [send_email] sends under the headers [hdrs]. *)
Definition mail_request (hdrs : list (string * string))
  (recipient_email subject body : string) (save_to_sent : bool) : request :=
  {| method := "POST"; url := GRAPH ++ "/me/sendMail"; req_headers := hdrs;
     req_json :=
       Some (JDict [("message",
                     JDict [("subject", JStr subject);
                            ("body", JDict [("contentType", JStr "Text");
                                            ("content", JStr body)]);
                            ("toRecipients",
                             JList [JDict [("emailAddress",
                                            JDict [("address",
                                                    JStr recipient_email)])]])]);
                    ("saveToSentItems", JBool save_to_sent)]) |}.






(** A computation that, when it returns, leaves a state satisfying [Q]. *)
Definition returns_with {A} (Q : state -> Prop) (m : M A) : Prop :=
  forall (s s' : state) (a : A), m s = (Return a, s') -> Q s'.

(** A computation that leaves the state as it finds it. *)
Definition stateless {A} (m : M A) : Prop :=
  forall (s : state), snd (m s) = s.

Definition budget_full (s : state) : Prop := max_retries s = MAX_RETRIES.

(** The sleeps and the calls to the identity provider among the events of a
    trace, and the writes of the cache file. *)
Fixpoint sleeps_in (t : list event) : nat :=
  match t with
  | [] => O
  | Sleep _ :: r => S (sleeps_in r)
  | _ :: r => sleeps_in r
  end.

Fixpoint silent_calls (t : list event) : nat :=
  match t with
  | [] => O
  | AcquireSilent _ _ :: r => S (silent_calls r)
  | _ :: r => silent_calls r
  end.

Fixpoint interactive_calls (t : list event) : nat :=
  match t with
  | [] => O
  | AcquireInteractive _ :: r => S (interactive_calls r)
  | _ :: r => interactive_calls r
  end.

Fixpoint writes_in (t : list event) : nat :=
  match t with
  | [] => O
  | WriteCache _ :: r => S (writes_in r)
  | _ :: r => writes_in r
  end.

(** An acquisition that asks for the scopes of [SCOPES]. *)
Definition asks_scopes (e : event) : Prop :=
  match e with
  | AcquireSilent scopes _ => scopes = SCOPES
  | AcquireInteractive scopes => scopes = SCOPES
  | _ => True
  end.

(** The budget within its range. *)
Definition within_budget (s : state) : Prop :=
  0 <= max_retries s <= MAX_RETRIES.

(** Two states with the same credentials: token, cache, cache file and
    pending answers of the identity provider. *)
Definition same_credentials (s s' : state) : Prop :=
  token s' = token s /\ cache s' = cache s /\ disk s' = disk s /\
  idp s' = idp s.

(** Two states between which the remote side did not move: same budget,
    same pending answers of the service, no request and no sleep. *)
Definition same_remote (s s' : state) : Prop :=
  max_retries s' = max_retries s /\ server s' = server s /\
  requests_in (trace s') = requests_in (trace s) /\
  sleeps_in (trace s') = sleeps_in (trace s).

(** A computation that relates the state it ends in to the state it starts
    from by [R]. *)
Definition keeps {A} (R : state -> state -> Prop) (m : M A) : Prop :=
  forall s : state, R s (snd (m s)).


(** The file [_save_cache_if_changed] writes for the content [d]. *)
Definition cache_file_of (d : Msal.cache_data) : file :=
  Readable {| Msal.chars := Msal.serialized d; Msal.loads := Some d |}.

(** The token in the [dict] of an acquisition. *)
Definition granted (r : option Msal.token_response) : option string :=
  match r with
  | Some d => dict_get "access_token" d
  | None => None
  end.

(** The ["id"] of an entry of the batch. *)
Definition entry_id (entry : json) : option json :=
  match entry with
  | JDict d => dict_get "id" d
  | _ => None
  end.

(** *** The paths of an acquisition

    [_get_token_or_authenticate] reads the accounts of the cache, asks the
    provider silently when there is one, interactively when that gives no
    token, and stores the token granted.  The relation [acquired] lists the
    ways such a run can go, each with the state it ends in. *)

Definition cached_accounts (s : state) : list Msal.account :=
  Msal.accounts (Msal.data (cache s)).

(** The state once the call [call] has been answered by [a], the answers
    [rest] remaining. *)
Definition answered (call : event) (a : Msal.acquisition)
  (rest : list Msal.acquisition) (s : state) : state :=
  let s1 := set_idp rest (log call s) in
  match Msal.stored a with
  | Some d => set_cache {| Msal.data := d; Msal.has_state_changed := true |} s1
  | None => s1
  end.

(** The state once the cache has been saved if it had changed. *)
Definition flushed (s : state) : state := snd (_save_cache_if_changed s).

(** The state once the token [tok] has been taken over. *)
Definition stored_token (tok : string) (s : state) : state :=
  set_token (Some tok) (flushed s).

Definition silent (acct : Msal.account) : event := AcquireSilent SCOPES acct.
Definition interactive : event := AcquireInteractive SCOPES.

Inductive acquired : state -> outcome unit -> state -> Prop :=
| acquired_interactive_pending (s : state) :
    cached_accounts s = [] -> idp s = [] ->
    acquired s Blocked (log interactive s)
| acquired_interactive_refused (s : state) (a : Msal.acquisition)
    (rest : list Msal.acquisition) :
    cached_accounts s = [] -> idp s = a :: rest ->
    granted (Msal.returned a) = None ->
    acquired s (Raise (RuntimeError (auth_failure (Msal.returned a))))
             (answered interactive a rest s)
| acquired_interactive_granted (s : state) (a : Msal.acquisition)
    (rest : list Msal.acquisition) (tok : string) :
    cached_accounts s = [] -> idp s = a :: rest ->
    granted (Msal.returned a) = Some tok ->
    acquired s (Return tt) (stored_token tok (answered interactive a rest s))
| acquired_silent_pending (s : state) (acct : Msal.account)
    (others : list Msal.account) :
    cached_accounts s = acct :: others -> idp s = [] ->
    acquired s Blocked (log (silent acct) s)
| acquired_silent_granted (s : state) (acct : Msal.account)
    (others : list Msal.account) (a : Msal.acquisition)
    (rest : list Msal.acquisition) (tok : string) :
    cached_accounts s = acct :: others -> idp s = a :: rest ->
    granted (Msal.returned a) = Some tok ->
    acquired s (Return tt) (stored_token tok (answered (silent acct) a rest s))
| acquired_fallback_pending (s : state) (acct : Msal.account)
    (others : list Msal.account) (a : Msal.acquisition) :
    cached_accounts s = acct :: others -> idp s = [a] ->
    granted (Msal.returned a) = None ->
    acquired s Blocked (log interactive (answered (silent acct) a [] s))
| acquired_fallback_refused (s : state) (acct : Msal.account)
    (others : list Msal.account) (a b : Msal.acquisition)
    (rest : list Msal.acquisition) :
    cached_accounts s = acct :: others -> idp s = a :: b :: rest ->
    granted (Msal.returned a) = None ->
    granted (Msal.returned b) = None ->
    acquired s (Raise (RuntimeError (auth_failure (Msal.returned b))))
             (answered interactive b rest
                (answered (silent acct) a (b :: rest) s))
| acquired_fallback_granted (s : state) (acct : Msal.account)
    (others : list Msal.account) (a b : Msal.acquisition)
    (rest : list Msal.acquisition) (tok : string) :
    cached_accounts s = acct :: others -> idp s = a :: b :: rest ->
    granted (Msal.returned a) = None ->
    granted (Msal.returned b) = Some tok ->
    acquired s (Return tt)
             (stored_token tok
                (answered interactive b rest
                   (answered (silent acct) a (b :: rest) s))).






(** ** Concrete clients and answers *)

Module Examples.

Definition quote : string := String (ascii_of_nat 34) EmptyString.

(** A client as [__init__] leaves it, with token [tok], facing the
    answers [answers]. *)
Definition client (tok : string) (answers : list response) : state :=
  mkState (Some tok) MAX_RETRIES Msal.new_cache None [] answers [].

Definition rows_ok : response :=
  {| status_code := 200; headers := [];
     text := "{" ++ quote ++ "values" ++ quote ++ ": [[1]]}";
     json_body := Some (JDict [("values", JList [JList [JInt 1]])]) |}.


Definition plain (status : Z) : response :=
  {| status_code := status; headers := []; text := "{}";
     json_body := Some (JDict []) |}.

(** A throttled answer without a delay, and with one. *)
Definition busy : response := plain 429.

Definition busy_for (delay : string) : response :=
  {| status_code := 429; headers := [("Retry-After", delay)];
     text := "{}"; json_body := Some (JDict []) |}.

(** A throttled answer whose body is a page of text. *)
Definition busy_page : response :=
  {| status_code := 429; headers := [("Retry-After", "5")];
     text := "<html>Too Many Requests</html>"; json_body := None |}.


Definition failed (status : Z) : response :=
  {| status_code := status; headers := []; text := "boom";
     json_body := None |}.

Definition http_date : string := "Wed, 21 Oct 2015 07:28:00 GMT".

(** A cache holding one account, and the file MSAL wrote for it. *)
Definition alice : Msal.cache_data :=
  {| Msal.accounts := ["alice"]; Msal.serialized := "{alice}" |}.

Definition alice_file : file :=
  Readable {| Msal.chars := "{alice}"; Msal.loads := Some alice |}.


(** The identity provider hands out the token [tok]. *)
Definition grants (tok : string) : Msal.acquisition :=
  {| Msal.returned := Some [("access_token", tok)];
     Msal.stored := None |}.


(** The world before a client exists. *)
Definition world (d : option file) (answers : list Msal.acquisition)
  (replies : list response) : state :=
  mkState None 0 Msal.new_cache d answers replies [].

(** A client built over [alice_file] while the provider granted ["T0"];
    the provider will grant ["T1"] at the next acquisition. *)
Definition aged_client : state :=
  snd (__init__ (world (Some alice_file) [grants "T0"; grants "T1"]
                       [rows_ok])).

(** The same client facing a service that keeps throttling. *)
Definition throttled_client : state :=
  snd (__init__ (world (Some alice_file) [grants "T0"; grants "T1"]
                       [busy; busy; busy; busy])).

(** Six throttled answers in a row. *)
Definition flood : list response := [busy; busy; busy; busy; busy; busy].






End Examples.

(** ** Round lemmas *)

Lemma enough_invoke (c : workbook_call) (s : state) :
  invoke c s = invoke_rounds (enough s) c s.
Proof. destruct c; reflexivity. Qed.

Ltac open_state s :=
  destruct s as [tk mr ch dk ip sv tr]; simpl in *; subst.

Ltac run_round :=
  cbn [invoke_rounds get_excel_rows_rounds batch_update_excel_rows_rounds
       reorder_excel_rows_rounds append_rows_to_table_rounds
       list_tables_rounds];
  unfold bind, self_token, requests_get, requests_post, send, get, modify,
    throttled, lock_contended, throttle_backoff, lock_backoff, response_json,
    int, sleep, raise, ret, sent, backed_off, log, set_server,
    set_max_retries;
  cbn [token server max_retries trace cache disk idp fst snd].


(** An answer that is neither retried nor successful: the method raises,
    having only sent its request. *)
Lemma round_raise (c : workbook_call) (n : nat) (s : state)
  (tok : string) (r : response) (rest : list response) :
  token s = Some tok ->
  server s = r :: rest ->
  throttled r s = false ->
  (forall i t rows, c = AppendTableRows i t rows ->
                    lock_contended r s = false) ->
  status_code r <> success_status c ->
  (decodes_first c = true -> json_body r <> None) ->
  invoke_rounds (S n) c s
  = (Raise (Exception (failure_prefix c ++ text r)),
     sent (request_of c tok) rest s).
Proof.
  intros Htok Hsrv Hth Hlock Hst Hjs.
  apply Z.eqb_neq in Hst.
  unfold throttled in Hth.
  open_state s.
  destruct c; run_round; cbn [success_status] in Hst;
    rewrite ?Hth, ?Hst; try reflexivity.
  - destruct (json_body r) eqn:Ej; [| exfalso; apply Hjs; reflexivity ].
    cbn. rewrite ?Hth, ?Hst. reflexivity.
  - specialize (Hlock _ _ _ eq_refl). unfold lock_contended in Hlock.
    cbn in Hlock. cbn. rewrite ?Hlock, ?Hst. reflexivity.
Qed.

(** [get_excel_rows] on a body that does not decode. *)
Lemma round_decode_error (i w : string) (n : nat) (s : state)
  (tok : string) (r : response) (rest : list response) :
  token s = Some tok ->
  server s = r :: rest ->
  json_body r = None ->
  get_excel_rows_rounds (S n) i w s
  = (Raise JSONDecodeError, sent (request_of (GetRange i w) tok) rest s).
Proof.
  intros Htok Hsrv Hjs.
  open_state s. run_round. rewrite Hjs. reflexivity.
Qed.

(** A throttled answer, budget left, whose delay [int] rejects. *)
Lemma round_bad_delay (c : workbook_call) (n : nat) (s : state)
  (tok : string) (r : response) (rest : list response) :
  token s = Some tok ->
  server s = r :: rest ->
  status_code r = 429 ->
  0 < max_retries s ->
  retry_after r = None ->
  (decodes_first c = true -> json_body r <> None) ->
  invoke_rounds (S n) c s
  = (Raise ValueError,
     set_max_retries (max_retries s - 1) (sent (request_of c tok) rest s)).
Proof.
  intros Htok Hsrv Hst Hb Hd Hjs.
  unfold retry_after in Hd.
  assert (Hlt : (0 <? max_retries s) = true) by (apply Z.ltb_lt; exact Hb).
  open_state s.
  destruct c; run_round; rewrite ?Hst, ?Hlt, ?Hd; cbn; try reflexivity.
  destruct (json_body r) eqn:Ej; [| exfalso; apply Hjs; reflexivity ].
  cbn. rewrite ?Hlt. cbn. reflexivity.
Qed.



(** ** The rounds never run out

    One round takes one answer, so that more rounds than the service has
    answers left are as good as any larger number. *)

Ltac round_cases :=
  repeat
    (unfold modify, raise, ret;
     cbn -[invoke_rounds get_excel_rows_rounds batch_update_excel_rows_rounds
           reorder_excel_rows_rounds append_rows_to_table_rounds
           list_tables_rounds PyStr.int PyStr.contains Z.ltb Z.eqb];
     match goal with
     | |- ?x = ?x => reflexivity
     | |- context [json_body ?r] => destruct (json_body r)
     | |- context [(status_code ?r =? ?k) && ?b] =>
         destruct ((status_code r =? k) && b)
     | |- context [PyStr.int ?v] => destruct (PyStr.int v)
     | |- context [?d <? 0] => destruct (d <? 0)
     | |- context [PyStr.contains ?a ?b && ?c] =>
         destruct (PyStr.contains a b && c)
     | |- context [negb (status_code ?r =? ?k)] =>
         destruct (negb (status_code r =? k))
     end).

Lemma round_congruence (c : workbook_call) (n m k : nat) :
  (forall s, (List.length (server s) < k)%nat ->
             invoke_rounds n c s = invoke_rounds m c s) ->
  forall s, (List.length (server s) < S k)%nat ->
            invoke_rounds (S n) c s = invoke_rounds (S m) c s.
Proof.
  intros IH s Hlen. destruct s as [tk mr ch dk ip sv tr]. cbn in Hlen.
  destruct tk as [tok |]; [| destruct c; reflexivity ].
  destruct sv as [| r rest]; [ destruct c; reflexivity |]. cbn in Hlen.
  destruct c; cbn [invoke_rounds] in *; run_round; round_cases.
  all: apply IH; cbn; lia.
Qed.

(** From the rounds a method grants itself on, the number of rounds does
    not matter. *)
Lemma rounds_stable (c : workbook_call) (k : nat) :
  forall (n : nat) (s : state),
    (List.length (server s) < k)%nat ->
    invoke_rounds (k + n) c s = invoke_rounds k c s.
Proof.
  induction k as [| k IH]; intros n s Hlen; [ lia |].
  cbn [Nat.add]. apply (round_congruence c (k + n) k k); [| exact Hlen ].
  intros s' Hs'. apply IH. exact Hs'.
Qed.

Lemma invoke_any_rounds (c : workbook_call) (s : state) (n : nat) :
  invoke_rounds (enough s + n) c s = invoke c s.
Proof.
  rewrite enough_invoke. apply rounds_stable. unfold enough. lia.
Qed.


(** ** The methods, round by round

    A retry is the method run again: with one answer taken, the rounds left
    are exactly those the method grants itself in the new state. *)

Lemma enough_cons (s : state) (r : response) (rest : list response) :
  server s = r :: rest -> enough s = S (S (List.length rest)).
Proof. intros H. unfold enough. rewrite H. reflexivity. Qed.


Lemma invoke_raise (c : workbook_call) (s : state)
  (tok : string) (r : response) (rest : list response) :
  token s = Some tok ->
  server s = r :: rest ->
  throttled r s = false ->
  (forall i t rows, c = AppendTableRows i t rows ->
                    lock_contended r s = false) ->
  status_code r <> success_status c ->
  (decodes_first c = true -> json_body r <> None) ->
  invoke c s
  = (Raise (Exception (failure_prefix c ++ text r)),
     sent (request_of c tok) rest s).
Proof.
  intros Htok Hsrv Hth Hlock Hst Hjs.
  rewrite enough_invoke, (enough_cons s r rest Hsrv).
  now apply round_raise.
Qed.



(** [send_email] once the headers are there: the one answer decides. *)
Lemma send_email_answer (recipient_email subject body : string)
  (save_to_sent : bool) (s s1 : state) (hdrs : list (string * string))
  (r : response) (rest : list response) :
  _auth_headers s = (Return hdrs, s1) ->
  server s1 = r :: rest ->
  send_email recipient_email subject body save_to_sent s
  = (if (status_code r =? 202) || (status_code r =? 200) then Return true
     else Raise (Exception ("Failed to send email: "
                            ++ PyStr.str (status_code r) ++ " " ++ text r)),
     sent (mail_request hdrs recipient_email subject body save_to_sent)
          rest s1).
Proof.
  intros Hauth Hsrv.
  unfold send_email, bind. rewrite Hauth.
  unfold requests_post, send. rewrite Hsrv.
  destruct ((status_code r =? 202) || (status_code r =? 200)); reflexivity.
Qed.

(** ** The claims *)

(** C9. [get_excel_rows] decodes the body as JSON before it looks at the
    status: for any answer whose body is not JSON, a 429 included, the
    method raises the decoding error having only sent its request; the
    budget is untouched, nothing is slept and nothing is retried. *)
Theorem C9_decode_before_status (i w : string) (s : state) (tok : string)
  (r : response) (rest : list response) :
  token s = Some tok ->
  server s = r :: rest ->
  json_body r = None ->
  get_excel_rows i w s
  = (Raise JSONDecodeError, sent (request_of (GetRange i w) tok) rest s).
Proof.
  intros Htok Hsrv Hjs.
  unfold get_excel_rows. rewrite (enough_cons s r rest Hsrv).
  now apply (round_decode_error i w _ s tok r rest).
Qed.

Lemma C9_witness :
  status_code Examples.busy_page = 429 /\
  get_excel_rows "I" "W" (Examples.client "T" [Examples.busy_page])
  = (Raise JSONDecodeError,
     sent (request_of (GetRange "I" "W") "T") []
          (Examples.client "T" [Examples.busy_page])).
Proof.
  split; [ reflexivity |].
  apply (C9_decode_before_status "I" "W" _ "T" Examples.busy_page []);
    reflexivity.
Defined.

(** C10. In the throttling branch of each of the five methods, a 429 answer
    met with budget left whose [Retry-After] value [int] does not accept (an
    HTTP date, say) makes the method raise [ValueError]: the budget has gone
    down by one, nothing is slept and nothing is retried. *)
Theorem C10_unparsable_retry_after (c : workbook_call) (s : state)
  (tok : string) (r : response) (rest : list response) (v : string) :
  token s = Some tok ->
  server s = r :: rest ->
  status_code r = 429 ->
  0 < max_retries s ->
  headers_get (headers r) "Retry-After" "30" = v ->
  PyStr.int v = None ->
  (decodes_first c = true -> json_body r <> None) ->
  invoke c s
  = (Raise ValueError,
     set_max_retries (max_retries s - 1) (sent (request_of c tok) rest s)).
Proof.
  intros Htok Hsrv Hst Hb Hv Hint Hjs.
  rewrite enough_invoke, (enough_cons s r rest Hsrv).
  apply (round_bad_delay c _ s tok r rest); try assumption.
  unfold retry_after. rewrite Hv. exact Hint.
Qed.

Lemma C10_witness :
  PyStr.int Examples.http_date = None /\
  invoke (ListTables "I")
         (Examples.client "T" [Examples.busy_for Examples.http_date])
  = (Raise ValueError,
     set_max_retries 2
       (sent (request_of (ListTables "I") "T") []
             (Examples.client "T" [Examples.busy_for Examples.http_date]))).
Proof.
  split; [ reflexivity |].
  apply (C10_unparsable_retry_after (ListTables "I")
           (Examples.client "T" [Examples.busy_for Examples.http_date]) "T"
           (Examples.busy_for Examples.http_date) [] Examples.http_date);
    try reflexivity.
  intros H; discriminate H.
Defined.

(** C7, as the code has it.  In every remote operation an answer that is
    neither a success, nor throttled, nor lock-contended makes the method
    raise at once: only the request has gone out, the budget is untouched,
    nothing is slept and nothing is retried.  The exception of the five
    workbook methods carries the body text verbatim after a fixed prefix;
    the exception of [send_email] carries the status code and the body
    text.  ([get_excel_rows] is taken on a body that decodes.) *)
Theorem C7_failure_is_immediate :
  (forall (c : workbook_call) (s : state) (tok : string) (r : response)
          (rest : list response),
      token s = Some tok ->
      server s = r :: rest ->
      status_code r <> success_status c ->
      status_code r <> 429 ->
      PyStr.contains LOCK_MARKER (text r) = false ->
      (decodes_first c = true -> json_body r <> None) ->
      invoke c s
      = (Raise (Exception (failure_prefix c ++ text r)),
         sent (request_of c tok) rest s)) /\
  (forall (recipient_email subject body : string) (save_to_sent : bool)
          (s s1 : state) (hdrs : list (string * string)) (r : response)
          (rest : list response),
      _auth_headers s = (Return hdrs, s1) ->
      server s1 = r :: rest ->
      status_code r <> 200 ->
      status_code r <> 202 ->
      send_email recipient_email subject body save_to_sent s
      = (Raise (Exception ("Failed to send email: "
                           ++ PyStr.str (status_code r) ++ " " ++ text r)),
         sent (mail_request hdrs recipient_email subject body save_to_sent)
              rest s1)).
Proof.
  split.
  - intros c s tok r rest Htok Hsrv Hok Hth Hm Hjs.
    apply invoke_raise; try assumption.
    + unfold throttled. apply Z.eqb_neq in Hth. rewrite Hth. reflexivity.
    + intros _ _ _ _. unfold lock_contended. rewrite Hm. reflexivity.
  - intros to subject body save s s1 hdrs r rest Hauth Hsrv H200 H202.
    rewrite (send_email_answer to subject body save s s1 hdrs r rest Hauth Hsrv).
    apply Z.eqb_neq in H200. apply Z.eqb_neq in H202.
    rewrite H200, H202. reflexivity.
Qed.

Lemma C7_witness :
  invoke (AppendTableRows "I" "T1" (JList []))
         (Examples.client "T" [Examples.failed 200])
  = (Raise (Exception "Failed to append rows: boom"),
     sent (request_of (AppendTableRows "I" "T1" (JList [])) "T") []
          (Examples.client "T" [Examples.failed 200])) /\
  fst (send_email "a@b" "s" "b" true Examples.throttled_client)
  = Raise (Exception "Failed to send email: 429 {}").
Proof.
  split.
  - apply (proj1 C7_failure_is_immediate
             (AppendTableRows "I" "T1" (JList []))
             (Examples.client "T" [Examples.failed 200]) "T"
             (Examples.failed 200) []);
      try reflexivity; try (intros H; discriminate H).
  - rewrite (proj2 C7_failure_is_immediate "a@b" "s" "b" true
               Examples.throttled_client
               (snd (_auth_headers Examples.throttled_client))
               (bearer "T1") Examples.busy
               [Examples.busy; Examples.busy; Examples.busy]);
      try reflexivity; intros H; discriminate H.
Defined.

(** C7 as stated fails: the exception [list_tables] raises on a 500 answer
    is the one it raises on a 404 answer with the same body, and its message
    does not hold the status code. *)
Lemma C7_counterexample :
  fst (invoke (ListTables "I") (Examples.client "T" [Examples.failed 500]))
  = Raise (Exception "Failed to list tables: boom") /\
  fst (invoke (ListTables "I") (Examples.client "T" [Examples.failed 404]))
  = Raise (Exception "Failed to list tables: boom") /\
  PyStr.contains (PyStr.str 500) "Failed to list tables: boom" = false.
Proof. repeat split; reflexivity. Qed.





(** *** Lock contention *)

Lemma requests_in_app (t u : list event) :
  requests_in (t ++ u) = (requests_in t + requests_in u)%nat.
Proof.
  induction t as [| e t IH]; [ reflexivity |].
  destruct e; cbn; rewrite IH; reflexivity.
Qed.






(** *** The batch *)

(** The loop appends one entry per row, in order. *)
Lemma request_loop (i w e : string) (l : list (nat * (Z * list json)))
  (acc : list json) :
  fold_left
    (fun (acc : list json) '(id, row) =>
       (acc ++ [sub_request i w e id row])%list) l acc
  = (acc ++ map (fun p => sub_request i w e (fst p) (snd p)) l)%list.
Proof.
  revert acc. induction l as [| [id row] l IH]; intros acc; cbn.
  - now rewrite app_nil_r.
  - rewrite IH, <- app_assoc. reflexivity.
Qed.

Lemma request_list_map (i w e : string) (rows : list (Z * list json)) :
  request_list i w e rows
  = map (fun p => sub_request i w e (fst p) (snd p)) (enumerate rows).
Proof. unfold request_list. now rewrite request_loop. Qed.





(** *** Status codes *)




(** *** The cache file *)

Section Oblivious.

Context {A B : Type}.





End Oblivious.





Section RaisesOnly.

Context {A B : Type} (P : exn -> Prop).



End RaisesOnly.








(** *** The budget after a success *)

Section ReturnsWith.

Context {A B : Type} (Q : state -> Prop).

Lemma returns_bind (m : M A) (k : A -> M B) :
  (forall a, returns_with Q (k a)) -> returns_with Q (bind m k).
Proof.
  intros Hk s s' b. unfold bind.
  destruct (m s) as [[a | e |] s1]; try discriminate.
  apply Hk.
Qed.

Lemma returns_raise (e : exn) : returns_with Q (@raise A e).
Proof. intros s s' a H. discriminate H. Qed.

Lemma returns_blocked : returns_with Q (@blocked A).
Proof. intros s s' a H. discriminate H. Qed.

Lemma returns_after_modify (f : state -> state) (m : M A) :
  (forall s, Q (f s)) -> stateless m ->
  returns_with Q (bind (modify f) (fun _ => m)).
Proof.
  intros Hf Hm s s' a. unfold bind, modify.
  specialize (Hm (f s)). destruct (m (f s)) as [o s1]. cbn in Hm.
  intros H. inversion H; subst. apply Hf.
Qed.

End ReturnsWith.

Lemma stateless_response_json (r : response) : stateless (response_json r).
Proof. intros s. unfold response_json. destruct (json_body r); reflexivity. Qed.

Lemma stateless_json_get (data : json) (key : string) (default : json) :
  stateless (json_get data key default).
Proof.
  intros s. unfold json_get.
  destruct data; try reflexivity. destruct (dict_get key d); reflexivity.
Qed.

Lemma stateless_bind {A B} (m : M A) (k : A -> M B) :
  stateless m -> (forall a, stateless (k a)) -> stateless (bind m k).
Proof.
  intros Hm Hk s. unfold bind. specialize (Hm s).
  destruct (m s) as [[a | e |] s1]; cbn in *; subst; try reflexivity.
  apply Hk.
Qed.

(** Every workbook method but [get_excel_rows] returns with the budget at
    its maximum. *)
Lemma budget_reset_on_return (c : workbook_call) (n : nat) :
  decodes_first c = false ->
  returns_with budget_full (invoke_rounds n c).
Proof.
  intros Hc. induction n as [| n IH].
  - destruct c; apply returns_blocked.
  - destruct c; try discriminate Hc; cbn [invoke_rounds] in *;
      apply returns_bind; intros tok;
      apply returns_bind; intros r;
      apply returns_bind; intros is_throttled;
      (destruct is_throttled;
       [ apply returns_bind; intros _; exact IH |]).
    + destruct (negb (status_code r =? 200)); [ apply returns_raise |].
      apply returns_bind; intros _.
      apply returns_bind; intros is_locked.
      destruct is_locked; [ apply returns_bind; intros _; exact IH |].
      apply returns_after_modify;
        [ reflexivity | apply stateless_response_json ].
    + destruct (negb (status_code r =? 200)); [ apply returns_raise |].
      apply returns_after_modify;
        [ reflexivity | apply stateless_response_json ].
    + apply returns_bind; intros is_locked.
      destruct is_locked; [ apply returns_bind; intros _; exact IH |].
      destruct (negb (status_code r =? 201)); [ apply returns_raise |].
      apply returns_after_modify;
        [ reflexivity | apply stateless_response_json ].
    + destruct (negb (status_code r =? 200)); [ apply returns_raise |].
      apply returns_after_modify; [ reflexivity |].
      apply stateless_bind;
        [ apply stateless_response_json | intros data;
          apply stateless_json_get ].
Qed.

Lemma invoke_resets_budget (c : workbook_call) (s s' : state) (v : json) :
  decodes_first c = false ->
  invoke c s = (Return v, s') -> max_retries s' = MAX_RETRIES.
Proof.
  intros Hc H. rewrite enough_invoke in H.
  exact (budget_reset_on_return c _ Hc s s' v H).
Qed.

(** C2 fails on [get_excel_rows], the one method that never assigns the
    budget back: after one throttled answer and a successful one it returns
    the rows and leaves the budget at 2, where [list_tables], over the same
    answers, leaves it at [MAX_RETRIES]. *)
Theorem C2_budget_left_short_by_get_excel_rows :
  get_excel_rows "I" "W"
    (Examples.client "T" [Examples.busy; Examples.rows_ok])
  = (Return (JList [JList [JInt 1]]),
     mkState (Some "T") 2 Msal.new_cache None [] []
       [Http (request_of (GetRange "I" "W") "T"); Sleep 30;
        Http (request_of (GetRange "I" "W") "T")]) /\
  2 <> MAX_RETRIES /\
  list_tables "I" (Examples.client "T" [Examples.busy; Examples.plain 200])
  = (Return (JList []),
     mkState (Some "T") MAX_RETRIES Msal.new_cache None [] []
       [Http (request_of (ListTables "I") "T"); Sleep 30;
        Http (request_of (ListTables "I") "T")]).
Proof.
  split; [ vm_compute; reflexivity | split; [ discriminate |] ].
  vm_compute; reflexivity.
Qed.

(** C1 fails on the five workbook methods, which put [self.token] into the
    header without calling [_ensure_token]: a client built when the provider
    granted T0 sends T0 with [get_excel_rows], asking the provider nothing,
    although the provider would grant T1 by now; [send_email], from the same
    state, asks first and sends T1. *)
Theorem C1_workbook_calls_send_the_stored_token :
  token Examples.aged_client = Some "T0" /\
  idp Examples.aged_client = [Examples.grants "T1"] /\
  get_excel_rows "I" "W" Examples.aged_client
  = (Return (JList [JList [JInt 1]]),
     sent {| method := "GET";
             url := "https://graph.microsoft.com/v1.0/me/drive/items/I"
                    ++ "/workbook/worksheets/W/usedRange";
             req_headers := [("Authorization", "Bearer T0");
                             ("Content-Type", "application/json")];
             req_json := None |}
          [] Examples.aged_client) /\
  trace (snd (send_email "a@b" "s" "b" true Examples.aged_client))
  = (trace Examples.aged_client
     ++ [AcquireSilent SCOPES "alice";
         Http (mail_request [("Authorization", "Bearer T1");
                             ("Content-Type", "application/json")]
                            "a@b" "s" "b" true)])%list.
Proof. repeat split; vm_compute; reflexivity. Qed.


(** ** The credential methods, path by path *)

Lemma no_token_granted (r : option Msal.token_response) :
  no_token r = match granted r with Some _ => false | None => true end.
Proof.
  destruct r as [[| p d] |]; reflexivity.
Qed.

Lemma acquire_answered (call : event) (s : state) (a : Msal.acquisition)
  (rest : list Msal.acquisition) :
  idp s = a :: rest ->
  acquire call s = (Return (Msal.returned a), answered call a rest s).
Proof. intros H. unfold acquire, answered. rewrite H. reflexivity. Qed.

Lemma acquire_pending (call : event) (s : state) :
  idp s = [] -> acquire call s = (Blocked, log call s).
Proof. intros H. unfold acquire. rewrite H. reflexivity. Qed.

(** The end of an acquisition on the answer [r]. *)
Lemma conclude_refused (r : option Msal.token_response) (s : state) :
  granted r = None ->
  (if no_token r then raise (RuntimeError (auth_failure r))
   else bind _save_cache_if_changed
          (fun _ => match r with
                    | Some d =>
                        match dict_get "access_token" d with
                        | Some t => modify (set_token (Some t))
                        | None => raise (KeyError "access_token")
                        end
                    | None => raise TypeError
                    end)) s
  = (Raise (RuntimeError (auth_failure r)), s).
Proof. intros H. rewrite no_token_granted, H. reflexivity. Qed.

Lemma save_returns (s : state) :
  _save_cache_if_changed s = (Return tt, flushed s).
Proof.
  unfold flushed, _save_cache_if_changed, bind, get, cache_serialize,
    write_cache_file, ret.
  destruct (Msal.has_state_changed (cache s)); reflexivity.
Qed.

Lemma conclude_granted (r : option Msal.token_response) (tok : string)
  (s : state) :
  granted r = Some tok ->
  (if no_token r then raise (RuntimeError (auth_failure r))
   else bind _save_cache_if_changed
          (fun _ => match r with
                    | Some d =>
                        match dict_get "access_token" d with
                        | Some t => modify (set_token (Some t))
                        | None => raise (KeyError "access_token")
                        end
                    | None => raise TypeError
                    end)) s
  = (Return tt, stored_token tok s).
Proof.
  intros H. rewrite no_token_granted, H.
  unfold bind. rewrite save_returns.
  destruct r as [d |]; [| discriminate H ]. cbn in H. rewrite H.
  reflexivity.
Qed.

Ltac path_done :=
  do 2 eexists; split; [ reflexivity | solve [ econstructor; eassumption ] ].

Lemma get_token_path (s : state) :
  exists o s', _get_token_or_authenticate s = (o, s') /\ acquired s o s'.
Proof.
  unfold _get_token_or_authenticate, get_accounts, acquire_token_silent,
    acquire_token_interactive.
  unfold bind at 1, get. fold (cached_accounts s).
  destruct (cached_accounts s) as [| acct others] eqn:Hacc.
  - unfold bind at 1, ret. cbn [no_token]. unfold bind at 1.
    destruct (idp s) as [| a rest] eqn:Hidp.
    + rewrite (acquire_pending _ s Hidp). path_done.
    + rewrite (acquire_answered _ s a rest Hidp).
      destruct (granted (Msal.returned a)) as [tok |] eqn:Hg.
      * rewrite (conclude_granted _ tok _ Hg). path_done.
      * rewrite (conclude_refused _ _ Hg). path_done.
  - unfold bind at 1.
    destruct (idp s) as [| a rest] eqn:Hidp.
    + rewrite (acquire_pending _ s Hidp). path_done.
    + rewrite (acquire_answered _ s a rest Hidp).
      unfold bind at 1. rewrite no_token_granted.
      destruct (granted (Msal.returned a)) as [tok |] eqn:Hg.
      * unfold ret. rewrite (conclude_granted _ tok _ Hg). path_done.
      * destruct rest as [| b rest].
        -- rewrite (acquire_pending interactive);
             [| unfold answered; destruct (Msal.stored a); reflexivity ].
           path_done.
        -- rewrite (acquire_answered interactive _ b rest);
             [| unfold answered; destruct (Msal.stored a); reflexivity ].
           destruct (granted (Msal.returned b)) as [tok |] eqn:Hb.
           ++ rewrite (conclude_granted _ tok _ Hb). path_done.
           ++ rewrite (conclude_refused _ _ Hb). path_done.
Qed.

(** Every run of [_get_token_or_authenticate] follows one of the paths. *)
Lemma get_token_acquired (s s' : state) (o : outcome unit) :
  _get_token_or_authenticate s = (o, s') -> acquired s o s'.
Proof.
  intros H. destruct (get_token_path s) as (o1 & s1 & E & Hacq).
  rewrite E in H. inversion H; subst. exact Hacq.
Qed.

(** What the steps of a path leave alone. *)
Lemma answered_fields (call : event) (a : Msal.acquisition)
  (rest : list Msal.acquisition) (s : state) :
  token (answered call a rest s) = token s /\
  max_retries (answered call a rest s) = max_retries s /\
  disk (answered call a rest s) = disk s /\
  server (answered call a rest s) = server s /\
  idp (answered call a rest s) = rest /\
  trace (answered call a rest s) = (trace s ++ [call])%list.
Proof. unfold answered. destruct (Msal.stored a); repeat split. Qed.

Lemma flushed_fields (s : state) :
  token (flushed s) = token s /\
  max_retries (flushed s) = max_retries s /\
  server (flushed s) = server s /\
  idp (flushed s) = idp s /\
  Msal.data (cache (flushed s)) = Msal.data (cache s) /\
  Msal.has_state_changed (cache (flushed s)) = false.
Proof.
  unfold flushed, _save_cache_if_changed, bind, get, cache_serialize,
    write_cache_file, ret.
  destruct (Msal.has_state_changed (cache s)) eqn:E; cbn; repeat split.
  exact E.
Qed.

(** What [_save_cache_if_changed] does to the file and to the trace. *)
Lemma flushed_disk (s : state) :
  (Msal.has_state_changed (cache s) = true /\
   disk (flushed s) = Some (cache_file_of (Msal.data (cache s))) /\
   trace (flushed s)
   = (trace s ++ [WriteCache (Msal.serialized (Msal.data (cache s)))])%list)
  \/
  (Msal.has_state_changed (cache s) = false /\ flushed s = s).
Proof.
  unfold flushed, _save_cache_if_changed, bind, get, cache_serialize,
    write_cache_file, ret.
  destruct (Msal.has_state_changed (cache s)) eqn:E; cbn.
  - left. repeat split.
  - right. split; [ reflexivity |].
    destruct s as [tk mr [d ch] dk ip sv tr]. cbn in *. subst. reflexivity.
Qed.

Lemma sleeps_in_app (t u : list event) :
  sleeps_in (t ++ u) = (sleeps_in t + sleeps_in u)%nat.
Proof.
  induction t as [| e t IH]; [ reflexivity |].
  destruct e; cbn; rewrite IH; reflexivity.
Qed.

Lemma silent_calls_app (t u : list event) :
  silent_calls (t ++ u) = (silent_calls t + silent_calls u)%nat.
Proof.
  induction t as [| e t IH]; [ reflexivity |].
  destruct e; cbn; rewrite IH; reflexivity.
Qed.

Lemma interactive_calls_app (t u : list event) :
  interactive_calls (t ++ u)
  = (interactive_calls t + interactive_calls u)%nat.
Proof.
  induction t as [| e t IH]; [ reflexivity |].
  destruct e; cbn; rewrite IH; reflexivity.
Qed.

Lemma writes_in_app (t u : list event) :
  writes_in (t ++ u) = (writes_in t + writes_in u)%nat.
Proof.
  induction t as [| e t IH]; [ reflexivity |].
  destruct e; cbn; rewrite IH; reflexivity.
Qed.

(** Two laws of [bind], at a state. *)
Lemma bind_ext {A B} (m : M A) (k k' : A -> M B) (s : state) :
  (forall a s1, k a s1 = k' a s1) -> bind m k s = bind m k' s.
Proof.
  intros H. unfold bind. destruct (m s) as [[a | e |] s1]; auto.
Qed.

Lemma bind_assoc {A B C} (m : M A) (k : A -> M B) (h : B -> M C)
  (s : state) :
  bind (bind m k) h s = bind m (fun a => bind (k a) h) s.
Proof.
  unfold bind. destruct (m s) as [[a | e |] s1]; reflexivity.
Qed.

Lemma bind_ret_l {A B} (a : A) (k : A -> M B) (s : state) :
  bind (ret a) k s = k a s.
Proof. reflexivity. Qed.

(** [_ensure_token] written out is [_get_token_or_authenticate]. *)
Lemma ensure_token_unfold (s : state) :
  _ensure_token s = _get_token_or_authenticate s.
Proof.
  unfold _ensure_token. unfold bind at 1, get_accounts, get.
  destruct (Msal.accounts (Msal.data (cache s))) as [| acct others] eqn:Hacc;
    [ reflexivity |].
  unfold _get_token_or_authenticate. unfold bind at 5, get_accounts, get.
  rewrite Hacc.
  apply bind_ext. intros t1 s1.
  destruct (no_token t1) eqn:E1.
  - rewrite bind_assoc. apply bind_ext. intros t2 s2.
    destruct (no_token t2); reflexivity.
  - rewrite !bind_ret_l, E1. reflexivity.
Qed.

Lemma token_answered c a r s : token (answered c a r s) = token s.
Proof. apply answered_fields. Qed.
Lemma max_retries_answered c a r s :
  max_retries (answered c a r s) = max_retries s.
Proof. apply answered_fields. Qed.
Lemma disk_answered c a r s : disk (answered c a r s) = disk s.
Proof. apply answered_fields. Qed.
Lemma server_answered c a r s : server (answered c a r s) = server s.
Proof. apply answered_fields. Qed.
Lemma idp_answered c a r s : idp (answered c a r s) = r.
Proof. apply answered_fields. Qed.
Lemma trace_answered c a r s :
  trace (answered c a r s) = (trace s ++ [c])%list.
Proof. apply answered_fields. Qed.

Lemma token_stored_token tok s : token (stored_token tok s) = Some tok.
Proof. reflexivity. Qed.
Lemma max_retries_stored_token tok s :
  max_retries (stored_token tok s) = max_retries s.
Proof. unfold stored_token. cbn. apply flushed_fields. Qed.
Lemma server_stored_token tok s : server (stored_token tok s) = server s.
Proof. unfold stored_token. cbn. apply flushed_fields. Qed.
Lemma idp_stored_token tok s : idp (stored_token tok s) = idp s.
Proof. unfold stored_token. cbn. apply flushed_fields. Qed.
Lemma disk_stored_token tok s : disk (stored_token tok s) = disk (flushed s).
Proof. reflexivity. Qed.
Lemma trace_stored_token tok s :
  trace (stored_token tok s) = trace (flushed s).
Proof. reflexivity. Qed.
Lemma cache_stored_token tok s : cache (stored_token tok s) = cache (flushed s).
Proof. reflexivity. Qed.

Lemma token_log e s : token (log e s) = token s.
Proof. reflexivity. Qed.
Lemma disk_log e s : disk (log e s) = disk s.
Proof. reflexivity. Qed.
Lemma trace_log e s : trace (log e s) = (trace s ++ [e])%list.
Proof. reflexivity. Qed.
Lemma max_retries_log e s : max_retries (log e s) = max_retries s.
Proof. reflexivity. Qed.
Lemma server_log e s : server (log e s) = server s.
Proof. reflexivity. Qed.
Lemma idp_log e s : idp (log e s) = idp s.
Proof. reflexivity. Qed.

Create Rewrite HintDb fields.
#[local] Hint Rewrite token_answered max_retries_answered disk_answered
  server_answered idp_answered trace_answered token_stored_token
  max_retries_stored_token server_stored_token idp_stored_token
  disk_stored_token trace_stored_token cache_stored_token token_log disk_log
  trace_log max_retries_log server_log idp_log silent_calls_app
  interactive_calls_app writes_in_app requests_in_app sleeps_in_app : fields.

Ltac fields := autorewrite with fields in *; cbn in *.

(** The writes of the cache file in the trace and on disk go together. *)
Lemma flushed_count (count : list event -> nat) (s : state) :
  (forall t u : list event, count (t ++ u)%list = (count t + count u)%nat) ->
  (forall c, count [WriteCache c] = O) ->
  count (trace (flushed s)) = count (trace s).
Proof.
  intros Happ Hw. destruct (flushed_disk s) as [(_ & _ & ->) | (_ & ->)];
    [| reflexivity ].
  rewrite Happ, Hw. lia.
Qed.

Lemma silent_calls_flushed s :
  silent_calls (trace (flushed s)) = silent_calls (trace s).
Proof. apply flushed_count; [ apply silent_calls_app | reflexivity ]. Qed.
Lemma interactive_calls_flushed s :
  interactive_calls (trace (flushed s)) = interactive_calls (trace s).
Proof. apply flushed_count; [ apply interactive_calls_app | reflexivity ]. Qed.
Lemma requests_in_flushed s :
  requests_in (trace (flushed s)) = requests_in (trace s).
Proof. apply flushed_count; [ apply requests_in_app | reflexivity ]. Qed.
Lemma sleeps_in_flushed s :
  sleeps_in (trace (flushed s)) = sleeps_in (trace s).
Proof. apply flushed_count; [ apply sleeps_in_app | reflexivity ]. Qed.

#[local] Hint Rewrite silent_calls_flushed interactive_calls_flushed
  requests_in_flushed sleeps_in_flushed : fields.

Lemma asks_scopes_flushed (s : state) :
  Forall asks_scopes (trace s) -> Forall asks_scopes (trace (flushed s)).
Proof.
  intros H. destruct (flushed_disk s) as [(_ & _ & ->) | (_ & ->)];
    [| exact H ].
  apply Forall_app. split; [ exact H | repeat constructor ].
Qed.

(** X1. [_ensure_token] and [_get_token_or_authenticate] are written apart
    but do the same thing in every state. *)
Theorem X1_ensure_token_is_get_token_or_authenticate (s : state) :
  _ensure_token s = _get_token_or_authenticate s.
Proof. exact (ensure_token_unfold s). Qed.


(** What a successful [_ensure_token] has done. *)
Lemma ensure_token_granted (s s' : state) :
  _ensure_token s = (Return tt, s') ->
  exists (pre : list Msal.acquisition) (a : Msal.acquisition) (tok : string),
    idp s = (pre ++ a :: idp s')%list /\
    (List.length pre <= 1)%nat /\
    Forall (fun b => granted (Msal.returned b) = None) pre /\
    granted (Msal.returned a) = Some tok /\
    token s' = Some tok /\
    Msal.has_state_changed (cache s') = false.
Proof.
  rewrite ensure_token_unfold. intros H. apply get_token_acquired in H.
  inversion H; subst; clear H.
  - exists [], a, tok. fields. repeat split; auto. apply flushed_fields.
  - exists [], a, tok. fields. repeat split; auto. apply flushed_fields.
  - exists [a], b, tok. fields. repeat split; auto. apply flushed_fields.
Qed.

(** X3. When [_ensure_token] returns, the token of the client is the one
    granted by the last answer the provider gave in this call; at most one
    earlier answer was consumed, and it held no token; the cache is flagged
    unchanged. *)
Theorem X3_token_is_the_one_just_granted (s s' : state) :
  _ensure_token s = (Return tt, s') ->
  exists (pre : list Msal.acquisition) (a : Msal.acquisition) (tok : string),
    idp s = (pre ++ a :: idp s')%list /\
    (List.length pre <= 1)%nat /\
    Forall (fun b => granted (Msal.returned b) = None) pre /\
    granted (Msal.returned a) = Some tok /\
    token s' = Some tok /\
    Msal.has_state_changed (cache s') = false.
Proof. exact (ensure_token_granted s s'). Qed.

(** X4. [_ensure_token] uses the cheapest method: without a cached account
    it makes no silent call; with one, and a first answer that grants a
    token, it returns with that token after one silent call and no
    interactive call.  No run makes more than one call of either kind. *)
Theorem X4_cheapest_acquisition_first (s s' : state) (o : outcome unit) :
  _ensure_token s = (o, s') ->
  (cached_accounts s = [] ->
   silent_calls (trace s') = silent_calls (trace s)) /\
  (forall acct others a rest tok,
      cached_accounts s = acct :: others ->
      idp s = a :: rest ->
      granted (Msal.returned a) = Some tok ->
      o = Return tt /\ token s' = Some tok /\
      silent_calls (trace s') = S (silent_calls (trace s)) /\
      interactive_calls (trace s') = interactive_calls (trace s)) /\
  (silent_calls (trace s') <= S (silent_calls (trace s)))%nat /\
  (interactive_calls (trace s') <= S (interactive_calls (trace s)))%nat.
Proof.
  rewrite ensure_token_unfold. intros H. apply get_token_acquired in H.
  inversion H; subst; clear H; fields;
    (split; [ intros; try congruence; lia |]);
    (split; [| lia ]);
    intros acct' others' a' rest' tok' Hacc Hidp Hg;
    try congruence.
  assert (a' = a) by congruence. subst a'.
  assert (tok' = tok) by congruence. subst tok'.
  repeat split; lia.
Qed.

(** X5. Every call [_ensure_token] makes to the provider, silent or
    interactive, asks for the scopes of [SCOPES]. *)
Theorem X5_same_scopes_in_every_acquisition (s s' : state)
  (o : outcome unit) :
  _ensure_token s = (o, s') ->
  Forall asks_scopes (trace s) ->
  Forall asks_scopes (trace s').
Proof.
  rewrite ensure_token_unfold. intros H Hs. apply get_token_acquired in H.
  inversion H; subst; clear H;
    repeat first
      [ rewrite trace_stored_token; apply asks_scopes_flushed
      | rewrite trace_answered
      | rewrite trace_log
      | apply Forall_app; split; [| repeat constructor ] ];
    exact Hs.
Qed.

Lemma cache_answered (c : event) (a : Msal.acquisition)
  (r : list Msal.acquisition) (s : state) :
  cache (answered c a r s)
  = match Msal.stored a with
    | Some d => {| Msal.data := d; Msal.has_state_changed := true |}
    | None => cache s
    end.
Proof. unfold answered. destruct (Msal.stored a); reflexivity. Qed.


(** X7. After a successful [_ensure_token] the cache file is up to date:
    either nothing was stored (cache and file as before, nothing written),
    or the file holds the content of the cache, written once. *)
Theorem X7_cache_file_follows_the_cache (s s' : state) :
  _ensure_token s = (Return tt, s') ->
  (cache s' = cache s /\ disk s' = disk s /\
   writes_in (trace s') = writes_in (trace s)) \/
  (disk s' = Some (cache_file_of (Msal.data (cache s'))) /\
   writes_in (trace s') = S (writes_in (trace s))).
Proof.
  rewrite ensure_token_unfold. intros H. apply get_token_acquired in H.
  assert (Hstep : forall x tok,
             writes_in (trace x) = writes_in (trace s) ->
             disk x = disk s ->
             (Msal.has_state_changed (cache x) = false -> cache x = cache s) ->
             (cache (stored_token tok x) = cache s /\
              disk (stored_token tok x) = disk s /\
              writes_in (trace (stored_token tok x)) = writes_in (trace s))
             \/
             (disk (stored_token tok x)
              = Some (cache_file_of (Msal.data (cache (stored_token tok x))))
              /\
              writes_in (trace (stored_token tok x))
              = S (writes_in (trace s)))).
  { intros x tok Hw Hd Hc.
    rewrite cache_stored_token, disk_stored_token, trace_stored_token.
    destruct (flushed_disk x) as [(E & Hdisk & Ht) | (E & Hx)].
    - right. rewrite Hdisk, Ht, writes_in_app, Hw.
      rewrite (proj1 (proj2 (proj2 (proj2 (proj2 (flushed_fields x)))))).
      split; [ reflexivity | cbn; lia ].
    - left. rewrite Hx. auto. }
  inversion H; subst; clear H; apply Hstep; fields; try lia; try reflexivity.
  all: rewrite ?cache_answered;
    repeat match goal with
      | |- context [Msal.stored ?a] => destruct (Msal.stored a)
      end; cbn; try discriminate; try reflexivity.
Qed.






(** [_auth_headers] after [_ensure_token]. *)
Lemma auth_headers_cases (s : state) :
  match _ensure_token s with
  | (Return _, s1) =>
      exists tok, token s1 = Some tok /\
                  _auth_headers s = (Return (bearer tok), s1)
  | (Raise e, s1) => _auth_headers s = (Raise e, s1)
  | (Blocked, s1) => _auth_headers s = (Blocked, s1)
  end.
Proof.
  unfold _auth_headers, bind.
  destruct (_ensure_token s) as [[[] | e |] s1] eqn:E; try reflexivity.
  destruct (ensure_token_granted s s1 E) as (_ & _ & tok & _ & _ & _ & _ & Ht & _).
  exists tok. split; [ exact Ht |].
  unfold self_token, ret. rewrite Ht. reflexivity.
Qed.

(** The credential methods leave the remote side alone. *)
Lemma ensure_token_same_remote (s s' : state) (o : outcome unit) :
  _ensure_token s = (o, s') -> same_remote s s'.
Proof.
  rewrite ensure_token_unfold. intros H. apply get_token_acquired in H.
  unfold same_remote.
  inversion H; subst; clear H; fields; repeat split; lia.
Qed.

(** [send_email] after [_auth_headers]. *)
Lemma send_email_cases (recipient_email subject body : string)
  (save_to_sent : bool) (s : state) :
  match _auth_headers s with
  | (Return hdrs, s1) =>
      match server s1 with
      | [] =>
          send_email recipient_email subject body save_to_sent s
          = (Blocked,
             log (Http (mail_request hdrs recipient_email subject body
                          save_to_sent)) s1)
      | r :: rest =>
          send_email recipient_email subject body save_to_sent s
          = (if (status_code r =? 202) || (status_code r =? 200)
             then Return true
             else Raise (Exception ("Failed to send email: "
                                    ++ PyStr.str (status_code r) ++ " "
                                    ++ text r)),
             sent (mail_request hdrs recipient_email subject body
                     save_to_sent) rest s1)
      end
  | (Raise e, s1) =>
      send_email recipient_email subject body save_to_sent s = (Raise e, s1)
  | (Blocked, s1) =>
      send_email recipient_email subject body save_to_sent s = (Blocked, s1)
  end.
Proof.
  destruct (_auth_headers s) as [[hdrs | e |] s1] eqn:E.
  - destruct (server s1) as [| r rest] eqn:Hsrv.
    + unfold send_email, bind. rewrite E. unfold requests_post, send.
      rewrite Hsrv. reflexivity.
    + exact (send_email_answer _ _ _ _ s s1 hdrs r rest E Hsrv).
  - unfold send_email, bind. rewrite E. reflexivity.
  - unfold send_email, bind. rewrite E. reflexivity.
Qed.

(** X9. [send_email] sends its request, if it sends one, under a token
    granted during this very call: either no request goes out and the call
    does not return (the authentication failed or is pending), or
    [_ensure_token] has returned, its last answer granted the token, and the
    one request that follows carries that token. *)
Theorem X9_mail_goes_out_under_a_fresh_token
  (recipient_email subject body : string) (save_to_sent : bool)
  (s s' : state) (o : outcome bool) :
  send_email recipient_email subject body save_to_sent s = (o, s') ->
  (requests_in (trace s') = requests_in (trace s) /\
   forall v, o <> Return v) \/
  (exists (s1 : state) (pre : list Msal.acquisition) (a : Msal.acquisition)
          (tok : string),
      _ensure_token s = (Return tt, s1) /\
      idp s = (pre ++ a :: idp s1)%list /\
      granted (Msal.returned a) = Some tok /\
      trace s'
      = (trace s1
         ++ [Http (mail_request (bearer tok) recipient_email subject body
                     save_to_sent)])%list).
Proof.
  intros H.
  pose proof (send_email_cases recipient_email subject body save_to_sent s)
    as Hsend.
  pose proof (auth_headers_cases s) as Hauth.
  destruct (_ensure_token s) as [[[] | e |] s1] eqn:E.
  - destruct Hauth as (tok & Ht & Hauth). rewrite Hauth in Hsend.
    destruct (ensure_token_granted s s1 E)
      as (pre & a & tok1 & Hidp & _ & _ & Hg & Ht1 & _).
    assert (tok1 = tok) by congruence. subst tok1.
    right. exists s1, pre, a, tok.
    repeat split; try assumption.
    destruct (server s1) as [| r rest]; rewrite Hsend in H;
      inversion H; subst; reflexivity.
  - rewrite Hauth in Hsend. rewrite Hsend in H. inversion H; subst.
    left. split; [| discriminate ].
    apply (ensure_token_same_remote s s' _ E).
  - rewrite Hauth in Hsend. rewrite Hsend in H. inversion H; subst.
    left. split; [| discriminate ].
    apply (ensure_token_same_remote s s' _ E).
Qed.

(** X10. [send_email] never touches the retry budget and never sleeps; it
    sends at most one request and takes at most one answer. *)
Theorem X10_send_email_has_no_retry
  (recipient_email subject body : string) (save_to_sent : bool)
  (s s' : state) (o : outcome bool) :
  send_email recipient_email subject body save_to_sent s = (o, s') ->
  max_retries s' = max_retries s /\
  sleeps_in (trace s') = sleeps_in (trace s) /\
  (requests_in (trace s') <= S (requests_in (trace s)))%nat /\
  (server s' = server s \/ server s' = tl (server s)).
Proof.
  intros H.
  pose proof (send_email_cases recipient_email subject body save_to_sent s)
    as Hsend.
  pose proof (auth_headers_cases s) as Hauth.
  destruct (_ensure_token s) as [[[] | e |] s1] eqn:E;
    destruct (ensure_token_same_remote s s1 _ E) as (Hm & Hsv & Hr & Hz).
  - destruct Hauth as (tok & Ht & Hauth). rewrite Hauth in Hsend.
    destruct (server s1) as [| r rest] eqn:Hs1; rewrite Hsend in H;
      inversion H; subst; unfold sent; cbn;
      rewrite ?sleeps_in_app, ?requests_in_app; cbn;
      rewrite Hm, Hz, Hr; repeat split; try lia.
    + left. congruence.
    + right. rewrite <- Hsv. reflexivity.
  - rewrite Hauth in Hsend. rewrite Hsend in H. inversion H; subst.
    repeat split; try lia; auto.
  - rewrite Hauth in Hsend. rewrite Hsend in H. inversion H; subst.
    repeat split; try lia; auto.
Qed.

(** ** Further properties of the workbook methods *)

Section Keeps.

Variable R : state -> state -> Prop.
Hypothesis R_refl : forall s, R s s.
Hypothesis R_trans : forall s1 s2 s3, R s1 s2 -> R s2 s3 -> R s1 s3.

Lemma keeps_bind {A B} (m : M A) (k : A -> M B) :
  keeps R m -> (forall a, keeps R (k a)) -> keeps R (bind m k).
Proof.
  intros Hm Hk s. unfold bind. specialize (Hm s).
  destruct (m s) as [[a | e |] s1]; cbn in *; auto.
  apply (R_trans _ s1); [ exact Hm | apply Hk ].
Qed.

Lemma keeps_stateless {A} (m : M A) : stateless m -> keeps R m.
Proof. intros H s. rewrite H. apply R_refl. Qed.

Lemma keeps_modify (f : state -> state) :
  (forall s, R s (f s)) -> keeps R (modify f).
Proof. intros H s. apply H. Qed.

End Keeps.

Lemma stateless_ret {A} (a : A) : stateless (ret a).
Proof. intros s. reflexivity. Qed.
Lemma stateless_raise {A} (e : exn) : stateless (@raise A e).
Proof. intros s. reflexivity. Qed.
Lemma stateless_blocked {A} : stateless (@blocked A).
Proof. intros s. reflexivity. Qed.
Lemma stateless_get {A} (f : state -> A) : stateless (get f).
Proof. intros s. reflexivity. Qed.
Lemma stateless_self_token : stateless self_token.
Proof. intros s. unfold self_token. destruct (token s); reflexivity. Qed.
Lemma stateless_int (v : string) : stateless (int v).
Proof. intros s. unfold int. destruct (PyStr.int v); reflexivity. Qed.
Lemma stateless_subscript (data : json) (key : string) :
  stateless (subscript data key).
Proof.
  intros s. unfold subscript.
  destruct data; try reflexivity. destruct (dict_get key d); reflexivity.
Qed.

Lemma same_credentials_refl (s : state) : same_credentials s s.
Proof. repeat split. Qed.

Lemma same_credentials_trans (s1 s2 s3 : state) :
  same_credentials s1 s2 -> same_credentials s2 s3 ->
  same_credentials s1 s3.
Proof. unfold same_credentials. intuition congruence. Qed.

Lemma send_keeps_credentials (r : request) : keeps same_credentials (send r).
Proof.
  intros s. unfold send. destruct (server s); repeat split.
Qed.

Lemma sleep_keeps_credentials (d : Z) : keeps same_credentials (sleep d).
Proof. intros s. unfold sleep. destruct (d <? 0); repeat split. Qed.

Ltac keep_credentials :=
  repeat match goal with
    | |- keeps _ (if ?b then _ else _) => destruct b
    | |- keeps _ (bind _ _) =>
        apply (keeps_bind _ same_credentials_trans); [| intros ? ]
    | |- keeps _ (send _) => apply send_keeps_credentials
    | |- keeps _ (sleep _) => apply sleep_keeps_credentials
    | |- keeps _ (modify _) =>
        apply (keeps_modify same_credentials); intros ?; repeat split
    | |- keeps _ self_token =>
        apply (keeps_stateless _ same_credentials_refl),
          stateless_self_token
    | |- keeps _ (int _) =>
        apply (keeps_stateless _ same_credentials_refl), stateless_int
    | |- keeps _ (get _) =>
        apply (keeps_stateless _ same_credentials_refl), stateless_get
    | |- keeps _ (raise _) =>
        apply (keeps_stateless _ same_credentials_refl), stateless_raise
    | |- keeps _ (response_json _) =>
        apply (keeps_stateless _ same_credentials_refl),
          stateless_response_json
    | |- keeps _ (subscript _ _) =>
        apply (keeps_stateless _ same_credentials_refl), stateless_subscript
    | |- keeps _ (json_get _ _ _) =>
        apply (keeps_stateless _ same_credentials_refl), stateless_json_get
    end.

Lemma rounds_keep_credentials (c : workbook_call) (n : nat) :
  keeps same_credentials (invoke_rounds n c).
Proof.
  induction n as [| n IH].
  - destruct c; apply (keeps_stateless _ same_credentials_refl);
      apply stateless_blocked.
  - destruct c;
      cbn [invoke_rounds get_excel_rows_rounds batch_update_excel_rows_rounds
           reorder_excel_rows_rounds append_rows_to_table_rounds
           list_tables_rounds] in *;
      unfold requests_get, requests_post, throttle_backoff, lock_backoff;
      keep_credentials; try exact IH.
Qed.

(** X11. No workbook method touches the credentials: the token of the
    client, the cache, the cache file and the pending answers of the
    identity provider are after the call what they were before, however the
    call ends. *)
Theorem X11_workbook_calls_leave_the_credentials (c : workbook_call)
  (s : state) :
  same_credentials s (snd (invoke c s)).
Proof. rewrite enough_invoke. apply rounds_keep_credentials. Qed.

(** *** Budget and requests *)

Ltac round_tree :=
  repeat
    (unfold modify, raise, ret, subscript, json_get, bind;
     cbn -[invoke_rounds get_excel_rows_rounds batch_update_excel_rows_rounds
           reorder_excel_rows_rounds append_rows_to_table_rounds
           list_tables_rounds PyStr.int PyStr.contains Z.ltb Z.eqb Z.sub
           dict_get];
     match goal with
     | |- context [json_body ?r] => destruct (json_body r)
     | |- context [(status_code ?r =? ?k) && ?b] =>
         destruct ((status_code r =? k) && b) eqn:?
     | |- context [PyStr.int ?v] => destruct (PyStr.int v)
     | |- context [?d <? 0] => destruct (d <? 0) eqn:?
     | |- context [PyStr.contains ?a ?b && ?c] =>
         destruct (PyStr.contains a b && c) eqn:?
     | |- context [negb (status_code ?r =? ?k)] =>
         destruct (negb (status_code r =? k))
     | |- context [match dict_get ?k ?d with _ => _ end] =>
         destruct (dict_get k d)
     | |- context [match ?j with JDict _ => _ | _ => _ end] =>
         is_var j; destruct j
     end).

Ltac budget_facts :=
  repeat match goal with
    | E : _ && _ = true |- _ => apply andb_prop in E; destruct E
    | E : (0 <? _) = true |- _ => apply Z.ltb_lt in E
    end.

Lemma rounds_within_budget (c : workbook_call) (n : nat) :
  forall (s s' : state) (o : outcome json),
    invoke_rounds n c s = (o, s') ->
    within_budget s -> within_budget s'.
Proof.
  unfold within_budget, MAX_RETRIES.
  induction n as [| n IH]; intros s s' o H Hb.
  - destruct c; inversion H; subst; exact Hb.
  - destruct s as [tk mr ch dk ip sv tr]. cbn in Hb. revert H.
    destruct tk as [tok |];
      [| destruct c; intros H; inversion H; subst; exact Hb ].
    destruct sv as [| r rest];
      [ destruct c; intros H; inversion H; subst; exact Hb |].
    destruct c; cbn [invoke_rounds] in *; run_round; round_tree;
      budget_facts;
      intros Hrun;
      first [ inversion Hrun; subst; cbn; unfold MAX_RETRIES; lia
            | apply IH in Hrun; [ exact Hrun | cbn; unfold MAX_RETRIES; lia ] ].
Qed.

(** X12. The budget stays within its range: a workbook call entered with
    [0 <= max_retries <= MAX_RETRIES] ends, however it ends, with the budget
    in that range. *)
Theorem X12_budget_stays_in_range (c : workbook_call) (s : state) :
  within_budget s -> within_budget (snd (invoke c s)).
Proof.
  intros Hb. rewrite enough_invoke.
  destruct (invoke_rounds (enough s) c s) as [o s'] eqn:E.
  exact (rounds_within_budget c _ s s' o E Hb).
Qed.

Lemma rounds_requests_bounded (c : workbook_call) (n : nat) :
  (forall i w rows e, c <> BatchUpdateRange i w rows e) ->
  forall (s s' : state) (o : outcome json),
    invoke_rounds n c s = (o, s') ->
    (requests_in (trace s')
     <= requests_in (trace s) + 1 + Z.to_nat (max_retries s))%nat /\
    (sleeps_in (trace s')
     <= sleeps_in (trace s) + Z.to_nat (max_retries s))%nat.
Proof.
  intros Hc.
  induction n as [| n IH]; intros s s' o H.
  - destruct c; inversion H; subst; lia.
  - destruct s as [tk mr ch dk ip sv tr]. revert H.
    destruct tk as [tok |];
      [| destruct c; intros H; inversion H; subst; cbn; lia ].
    destruct sv as [| r rest];
      [ destruct c; intros H; inversion H; subst; cbn;
        rewrite requests_in_app, sleeps_in_app; cbn; lia |].
    destruct c; try (exfalso; eapply Hc; reflexivity);
      cbn [invoke_rounds] in *; run_round; round_tree;
      budget_facts;
      intros Hrun;
      first [ inversion Hrun; subst; cbn;
              rewrite ?requests_in_app, ?sleeps_in_app; cbn;
              unfold MAX_RETRIES; lia
            | apply IH in Hrun; cbn in Hrun;
              rewrite ?requests_in_app, ?sleeps_in_app in Hrun; cbn in Hrun;
              unfold MAX_RETRIES in *; lia ].
Qed.

(** X13. Every workbook method other than [batch_update_excel_rows] is
    bounded by the budget it starts with: one call sends at most one
    request more than that budget and sleeps at most that many times. *)
Theorem X13_retries_bounded_by_the_budget (c : workbook_call) (s : state) :
  (forall i w rows e, c <> BatchUpdateRange i w rows e) ->
  (requests_in (trace (snd (invoke c s)))
   <= requests_in (trace s) + 1 + Z.to_nat (max_retries s))%nat /\
  (sleeps_in (trace (snd (invoke c s)))
   <= sleeps_in (trace s) + Z.to_nat (max_retries s))%nat.
Proof.
  intros Hc. rewrite enough_invoke.
  destruct (invoke_rounds (enough s) c s) as [o s'] eqn:E.
  exact (rounds_requests_bounded c _ Hc s s' o E).
Qed.

(** *** The successful answer *)

(** X14. [get_excel_rows] on a 200 answer whose body decodes: a dictionary
    with a ["values"] entry gives that entry; a dictionary without it makes
    the method raise [KeyError], and a body that is no dictionary
    [TypeError], although the request succeeded.  The budget is left as it
    was. *)
Theorem X14_get_excel_rows_reads_values (i w : string) (s : state)
  (tok : string) (r : response) (rest : list response) (data : json) :
  token s = Some tok ->
  server s = r :: rest ->
  status_code r = 200 ->
  json_body r = Some data ->
  get_excel_rows i w s
  = (match data with
     | JDict d =>
         match dict_get "values" d with
         | Some v => Return v
         | None => Raise (KeyError "values")
         end
     | _ => Raise TypeError
     end,
     sent (request_of (GetRange i w) tok) rest s).
Proof.
  intros Htok Hsrv Hst Hjs.
  unfold get_excel_rows. rewrite (enough_cons s r rest Hsrv).
  open_state s. run_round. rewrite Hjs. cbn. rewrite Hst. cbn.
  unfold subscript.
  destruct data; try reflexivity. destruct (dict_get "values" d); reflexivity.
Qed.

(** X15. [list_tables] on a 200 answer whose body is a dictionary returns
    its ["value"] entry, or the empty list when there is none, and the
    budget is back at [MAX_RETRIES]. *)
Theorem X15_list_tables_defaults_to_empty (i : string) (s : state)
  (tok : string) (r : response) (rest : list response)
  (d : list (string * json)) :
  token s = Some tok ->
  server s = r :: rest ->
  status_code r = 200 ->
  json_body r = Some (JDict d) ->
  list_tables i s
  = (Return (match dict_get "value" d with
             | Some v => v
             | None => JList []
             end),
     set_max_retries MAX_RETRIES
       (sent (request_of (ListTables i) tok) rest s)).
Proof.
  intros Htok Hsrv Hst Hjs.
  unfold list_tables. rewrite (enough_cons s r rest Hsrv).
  open_state s. run_round. rewrite Hst, Hjs. cbn.
  destruct (dict_get "value" d); reflexivity.
Qed.

(** X16. [reorder_excel_rows] and [batch_update_excel_rows] on a 200 answer
    (free of the lock marker, for the batch): the budget is set back to
    [MAX_RETRIES] and the decoded body is returned; when the body does not
    decode, an empty body included, the method raises the decoding error
    although the request succeeded. *)
Theorem X16_success_returns_the_decoded_body (c : workbook_call) (s : state)
  (tok : string) (r : response) (rest : list response) :
  (exists i w f, c = SortRange i w f) \/
  (exists i w rows e, c = BatchUpdateRange i w rows e /\
                      PyStr.contains LOCK_MARKER (text r) = false) ->
  token s = Some tok ->
  server s = r :: rest ->
  status_code r = 200 ->
  invoke c s
  = (match json_body r with
     | Some j => Return j
     | None => Raise JSONDecodeError
     end,
     set_max_retries MAX_RETRIES (sent (request_of c tok) rest s)).
Proof.
  intros Hc Htok Hsrv Hst.
  rewrite enough_invoke, (enough_cons s r rest Hsrv).
  destruct Hc as [(i & w & f & ->) | (i & w & rows & e & -> & Hm)];
    open_state s; run_round; rewrite Hst; cbn; rewrite ?Hm; cbn;
    destruct (json_body r); reflexivity.
Qed.

(** *** Exhausting any budget *)




(** *** The ids of the batch *)

Lemma str_injective (n m : Z) : PyStr.str n = PyStr.str m -> n = m.
Proof.
  unfold PyStr.str. intros H.
  apply DecimalZ.to_int_inj.
  assert (Hnil : forall z, Z.to_int z <> Decimal.Pos Decimal.Nil /\
                           Z.to_int z <> Decimal.Neg Decimal.Nil).
  { intros [| p | p]; cbn; split; try discriminate;
      intros E; inversion E as [E'];
      exact (DecimalPos.Unsigned.to_uint_nonnil p E'). }
  apply (f_equal NilZero.int_of_string) in H.
  rewrite !NilZero.isi in H by apply Hnil.
  inversion H. reflexivity.
Qed.

Lemma map_fst_numbered {A} (l : list A) (base : nat) :
  map fst (combine (seq base (List.length l)) l) = seq base (List.length l).
Proof.
  revert base. induction l as [| x l IH]; intros base; [ reflexivity |].
  cbn. now rewrite IH.
Qed.

Lemma NoDup_map_injective {A B} (f : A -> B) (l : list A) :
  (forall x y, f x = f y -> x = y) -> NoDup l -> NoDup (map f l).
Proof.
  intros Hf. induction 1 as [| x l Hx _ IH]; cbn; constructor; auto.
  intros Hin. apply in_map_iff in Hin. destruct Hin as (y & Hy & Hin).
  apply Hf in Hy. subst. contradiction.
Qed.

(** X18. The entries of a batch carry pairwise distinct ids, and every
    entry has one, whatever the rows (two rows with the same row number
    included). *)
Theorem X18_batch_ids_are_distinct (i w e : string)
  (rows : list (Z * list json)) :
  NoDup (map entry_id (request_list i w e rows)) /\
  Forall (fun entry => entry_id entry <> None) (request_list i w e rows).
Proof.
  rewrite request_list_map, map_map. split.
  - cbn [sub_request entry_id dict_get String.eqb Ascii.eqb Bool.eqb].
    rewrite <- (map_map fst
                  (fun k => Some (JStr (PyStr.str (Z.of_nat k + 1))))).
    apply NoDup_map_injective.
    + intros x y H. inversion H as [H']. apply str_injective in H'. lia.
    + unfold enumerate. rewrite map_fst_numbered. apply seq_NoDup.
  - apply Forall_map. apply Forall_forall. intros p _. discriminate.
Qed.

(** *** The script and the constructor *)











(** *** A constructed client *)


(** *** The lock retries of the batch *)



(** ** The further properties at work *)


Lemma X3_witness :
  exists (pre : list Msal.acquisition) (a : Msal.acquisition) (tok : string),
    idp Examples.aged_client
    = (pre ++ a :: idp (snd (_ensure_token Examples.aged_client)))%list /\
    (List.length pre <= 1)%nat /\
    Forall (fun b => granted (Msal.returned b) = None) pre /\
    granted (Msal.returned a) = Some tok /\
    token (snd (_ensure_token Examples.aged_client)) = Some tok /\
    Msal.has_state_changed (cache (snd (_ensure_token Examples.aged_client)))
    = false.
Proof.
  apply (X3_token_is_the_one_just_granted Examples.aged_client
           (snd (_ensure_token Examples.aged_client))).
  vm_compute; reflexivity.
Defined.

Lemma X4_witness :
  token (snd (_ensure_token Examples.aged_client)) = Some "T1" /\
  interactive_calls (trace (snd (_ensure_token Examples.aged_client)))
  = interactive_calls (trace Examples.aged_client).
Proof.
  destruct (proj1 (proj2
              (X4_cheapest_acquisition_first Examples.aged_client
                 (snd (_ensure_token Examples.aged_client)) (Return tt)
                 ltac:(vm_compute; reflexivity)))
              "alice" [] (Examples.grants "T1") [] "T1"
              eq_refl eq_refl eq_refl)
    as (_ & Ht & _ & Hi).
  split; [ exact Ht | exact Hi ].
Defined.

Lemma X5_witness :
  Forall asks_scopes (trace (snd (_ensure_token Examples.aged_client))).
Proof.
  apply (X5_same_scopes_in_every_acquisition Examples.aged_client
           (snd (_ensure_token Examples.aged_client))
           (fst (_ensure_token Examples.aged_client))).
  - vm_compute; reflexivity.
  - repeat constructor.
Defined.


Lemma X7_witness :
  (cache (snd (_ensure_token Examples.aged_client))
   = cache Examples.aged_client /\
   disk (snd (_ensure_token Examples.aged_client))
   = disk Examples.aged_client /\
   writes_in (trace (snd (_ensure_token Examples.aged_client)))
   = writes_in (trace Examples.aged_client)) \/
  (disk (snd (_ensure_token Examples.aged_client))
   = Some (cache_file_of
             (Msal.data (cache (snd (_ensure_token Examples.aged_client)))))
   /\
   writes_in (trace (snd (_ensure_token Examples.aged_client)))
   = S (writes_in (trace Examples.aged_client))).
Proof.
  apply (X7_cache_file_follows_the_cache Examples.aged_client
           (snd (_ensure_token Examples.aged_client))).
  vm_compute; reflexivity.
Defined.


Lemma X9_witness :
  (requests_in
     (trace (snd (send_email "a@b" "s" "b" true Examples.aged_client)))
   = requests_in (trace Examples.aged_client) /\
   forall v, fst (send_email "a@b" "s" "b" true Examples.aged_client)
             <> Return v) \/
  (exists (s1 : state) (pre : list Msal.acquisition) (a : Msal.acquisition)
          (tok : string),
      _ensure_token Examples.aged_client = (Return tt, s1) /\
      idp Examples.aged_client = (pre ++ a :: idp s1)%list /\
      granted (Msal.returned a) = Some tok /\
      trace (snd (send_email "a@b" "s" "b" true Examples.aged_client))
      = (trace s1
         ++ [Http (mail_request (bearer tok) "a@b" "s" "b" true)])%list).
Proof.
  apply (X9_mail_goes_out_under_a_fresh_token "a@b" "s" "b" true
           Examples.aged_client
           (snd (send_email "a@b" "s" "b" true Examples.aged_client))
           (fst (send_email "a@b" "s" "b" true Examples.aged_client))).
  vm_compute; reflexivity.
Defined.

Lemma X10_witness :
  max_retries (snd (send_email "a@b" "s" "b" true Examples.throttled_client))
  = max_retries Examples.throttled_client /\
  sleeps_in
    (trace (snd (send_email "a@b" "s" "b" true Examples.throttled_client)))
  = sleeps_in (trace Examples.throttled_client) /\
  (requests_in
     (trace (snd (send_email "a@b" "s" "b" true Examples.throttled_client)))
   <= S (requests_in (trace Examples.throttled_client)))%nat /\
  (server (snd (send_email "a@b" "s" "b" true Examples.throttled_client))
   = server Examples.throttled_client \/
   server (snd (send_email "a@b" "s" "b" true Examples.throttled_client))
   = tl (server Examples.throttled_client)).
Proof.
  apply (X10_send_email_has_no_retry "a@b" "s" "b" true
           Examples.throttled_client
           (snd (send_email "a@b" "s" "b" true Examples.throttled_client))
           (fst (send_email "a@b" "s" "b" true Examples.throttled_client))).
  vm_compute; reflexivity.
Defined.

Lemma X12_witness :
  within_budget
    (snd (invoke (ListTables "I") (Examples.client "T" Examples.flood))).
Proof.
  apply (X12_budget_stays_in_range (ListTables "I")
           (Examples.client "T" Examples.flood)).
  unfold within_budget. cbn. unfold MAX_RETRIES. lia.
Defined.

Lemma X13_witness :
  (requests_in
     (trace (snd (invoke (ListTables "I")
                    (Examples.client "T" Examples.flood))))
   <= requests_in (trace (Examples.client "T" Examples.flood)) + 1
      + Z.to_nat (max_retries (Examples.client "T" Examples.flood)))%nat /\
  (sleeps_in
     (trace (snd (invoke (ListTables "I")
                    (Examples.client "T" Examples.flood))))
   <= sleeps_in (trace (Examples.client "T" Examples.flood))
      + Z.to_nat (max_retries (Examples.client "T" Examples.flood)))%nat.
Proof.
  apply (X13_retries_bounded_by_the_budget (ListTables "I")
           (Examples.client "T" Examples.flood)).
  intros i w rows e H. discriminate H.
Defined.

Lemma X14_witness :
  get_excel_rows "I" "W" (Examples.client "T" [Examples.plain 200])
  = (Raise (KeyError "values"),
     sent (request_of (GetRange "I" "W") "T") []
          (Examples.client "T" [Examples.plain 200])).
Proof.
  exact (X14_get_excel_rows_reads_values "I" "W"
           (Examples.client "T" [Examples.plain 200]) "T"
           (Examples.plain 200) [] (JDict [])
           eq_refl eq_refl eq_refl eq_refl).
Defined.

Lemma X15_witness :
  list_tables "I" (Examples.client "T" [Examples.plain 200])
  = (Return (JList []),
     set_max_retries MAX_RETRIES
       (sent (request_of (ListTables "I") "T") []
             (Examples.client "T" [Examples.plain 200]))).
Proof.
  exact (X15_list_tables_defaults_to_empty "I"
           (Examples.client "T" [Examples.plain 200]) "T"
           (Examples.plain 200) [] [] eq_refl eq_refl eq_refl eq_refl).
Defined.

Lemma X16_witness :
  invoke (SortRange "I" "W" (JList []))
         (Examples.client "T" [Examples.failed 200])
  = (Raise JSONDecodeError,
     set_max_retries MAX_RETRIES
       (sent (request_of (SortRange "I" "W" (JList [])) "T") []
             (Examples.client "T" [Examples.failed 200]))).
Proof.
  apply (X16_success_returns_the_decoded_body (SortRange "I" "W" (JList []))
           (Examples.client "T" [Examples.failed 200]) "T"
           (Examples.failed 200) []);
    [ left; exists "I", "W", (JList []); reflexivity
    | reflexivity | reflexivity | reflexivity ].
Defined.




